(** * vue-eslint-parser: the document parsing coordinator (src/index.ts)

    A shallow embedding of [isVueFile], [isTemplateElement],
    [isScriptElement], [parseForESLint] and [parse], together with the
    JavaScript runtime pieces they rest on ([Object.assign], [||],
    [Array.prototype.find], [path.extname], the regular expression
    [/^\s*</]).

    The markup parser (./html), the script parser (./script), the location
    calculator (./common/location-calculator) and the traversal services
    (./parser-services) are collaborators of index.ts; the coordinator is
    stated over an arbitrary implementation of them. *)

From stdpp Require Import gmap strings list fin_maps pretty.

Set Warnings "-register-all".

Local Open Scope Z_scope.

(** ** JavaScript strings

    A JavaScript string is a sequence of UTF-16 code units. *)

Definition code_unit := N.
Abbreviation js_string := (list code_unit).

(** The code units of an ASCII literal. *)
Definition js (s : string) : js_string :=
  Ascii.N_of_ascii <$> String.list_ascii_of_string s.

Definition CHAR_FORWARD_SLASH : code_unit := 47%N.
Definition CHAR_DOT : code_unit := 46%N.
Definition CHAR_LT : code_unit := 60%N.

(** [a === b] on two strings. *)
Definition str_eqb (a b : js_string) : bool := bool_decide (a = b).

(** ** The regular expression [/^\s*</]

    [\s] is the union of ECMAScript's WhiteSpace and LineTerminator
    productions. *)

Definition is_js_space (c : code_unit) : bool :=
  ((9 <=? c) && (c <=? 13) ||
   (c =? 32) || (c =? 160) || (c =? 5760) ||
   (8192 <=? c) && (c <=? 8202) ||
   (c =? 8232) || (c =? 8233) || (c =? 8239) || (c =? 8287) ||
   (c =? 12288) || (c =? 65279))%N.

(** [STARTS_WITH_LT.test(code)]: anchored at the start, a greedy run of
    [\s], then the character [<].  As [<] is not in [\s], the greedy run
    never has to give a character back. *)
Fixpoint STARTS_WITH_LT_test (code : js_string) : bool :=
  match code with
  | [] => false
  | c :: rest =>
      if (c =? CHAR_LT)%N then true
      else if is_js_space c then STARTS_WITH_LT_test rest
      else false
  end.

(** ** [path.extname] (Node's [path] module, POSIX flavour)

    The loop walks the path from its last character to its first one. *)

Record ExtState := mkExtState {
  startDot : Z;
  startPart : Z;
  endPos : Z;
  matchedSlash : bool;
  preDotState : Z
}.

Definition ext_init : ExtState :=
  {| startDot := -1; startPart := 0; endPos := -1;
     matchedSlash := true; preDotState := 0 |}.

(** One iteration of the loop body at index [i]; [inl] is [break]. *)
Definition extname_step (c : code_unit) (i : Z) (st : ExtState)
  : ExtState + ExtState :=
  if (c =? CHAR_FORWARD_SLASH)%N then
    if negb (matchedSlash st)
    then inl {| startDot := startDot st; startPart := i + 1;
                endPos := endPos st; matchedSlash := matchedSlash st;
                preDotState := preDotState st |}
    else inr st
  else
    let st1 :=
      if endPos st =? -1
      then {| startDot := startDot st; startPart := startPart st;
              endPos := i + 1; matchedSlash := false;
              preDotState := preDotState st |}
      else st in
    inr
      (if (c =? CHAR_DOT)%N then
         if startDot st1 =? -1
         then {| startDot := i; startPart := startPart st1;
                 endPos := endPos st1; matchedSlash := matchedSlash st1;
                 preDotState := preDotState st1 |}
         else if negb (preDotState st1 =? 1)
         then {| startDot := startDot st1; startPart := startPart st1;
                 endPos := endPos st1; matchedSlash := matchedSlash st1;
                 preDotState := 1 |}
         else st1
       else if negb (startDot st1 =? -1)
       then {| startDot := startDot st1; startPart := startPart st1;
               endPos := endPos st1; matchedSlash := matchedSlash st1;
               preDotState := -1 |}
       else st1).

(** [for (let i = n - 1; i >= 0; --i)] *)
Fixpoint extname_loop (p : js_string) (n : nat) (st : ExtState) : ExtState :=
  match n with
  | O => st
  | S i =>
      match extname_step (nth i p 0%N) (Z.of_nat i) st with
      | inl st' => st'
      | inr st' => extname_loop p i st'
      end
  end.

Definition js_slice (s : js_string) (from to : Z) : js_string :=
  take (Z.to_nat (to - from)) (drop (Z.to_nat from) s).

Definition path_extname (p : js_string) : js_string :=
  let st := extname_loop p (length p) ext_init in
  if (startDot st =? -1) || (endPos st =? -1) || (preDotState st =? 0) ||
     ((preDotState st =? 1) && (startDot st =? endPos st - 1) &&
      (startDot st =? startPart st + 1))
  then []
  else js_slice p (startDot st) (endPos st).

(** ** JavaScript values, objects and the heap *)

Definition loc := positive.

Inductive jsval :=
| JUndefined
| JNull
| JBool (b : bool)
| JNum (n : Z)
| JStr (s : js_string)
| JObj (l : loc).

(** A plain data object: its own enumerable string-keyed properties. *)
Abbreviation obj := (gmap string jsval).
Abbreviation heap := (gmap loc (gmap string jsval)).

(** ToBoolean. Numbers are modelled as integers, so there is no NaN. *)
Definition truthy (v : jsval) : bool :=
  match v with
  | JUndefined | JNull => false
  | JBool b => b
  | JNum n => negb (n =? 0)
  | JStr s => negb (bool_decide (s = []))
  | JObj _ => true
  end.

(** [a || b] once both operands are values. *)
Definition js_or (a b : jsval) : jsval := if truthy a then a else b.

(** [o.k]: a missing property reads as [undefined]. *)
Definition get (o : obj) (k : string) : jsval := default JUndefined (o !! k).

Definition alloc (h : heap) (o : obj) : loc * heap :=
  let l := fresh (dom h) in (l, <[l := o]> h).

(** The own enumerable properties [Object.assign] reads from a source:
    those of an object, the indexed characters of a string, none for the
    other primitives. *)
Definition own_props (h : heap) (v : jsval) : obj :=
  match v with
  | JObj l => default ∅ (h !! l)
  | JStr s => list_to_map (imap (λ i c, (pretty i, JStr [c])) s)
  | _ => ∅
  end.

(** [Object.assign(target, source)] writes every own property of the
    source into the target object, in place, and returns the target. *)
Definition Object_assign (h : heap) (target : loc) (source : jsval) : heap :=
  match h !! target with
  | Some t => <[target := own_props h source ∪ t]> h
  | None => h
  end.

(** The same on property maps, for objects that are not shared. *)
Definition assign_props {V} (target source : gmap string V) : gmap string V :=
  source ∪ target.

(** ** The syntax trees (./ast) *)

(** Modelled from the spec: the declarations of ./ast are not part of
    index.ts; a markup node is a tagged union over element, text and
    comment, an element carrying a tag name, a source range and its ordered
    children.  An element also records the range of its start tag and,
    when it has one, of its end tag. *)
Inductive VNode :=
| VElement (name : js_string) (range : Z * Z)
    (startTag : Z * Z) (endTag : option (Z * Z)) (children : list VNode)
| VText (value : js_string) (range : Z * Z)
| VComment (value : js_string) (range : Z * Z).

Definition node_name (n : VNode) : option js_string :=
  match n with VElement name _ _ _ _ => Some name | _ => None end.

Definition node_range (n : VNode) : Z * Z :=
  match n with VElement _ r _ _ _ | VText _ r | VComment _ r => r end.

Definition node_children (n : VNode) : list VNode :=
  match n with VElement _ _ _ _ cs => cs | _ => [] end.

Definition node_startTag (n : VNode) : option (Z * Z) :=
  match n with VElement _ _ st _ _ => Some st | _ => None end.

Definition node_endTag (n : VNode) : option (Z * Z) :=
  match n with VElement _ _ _ et _ => et | _ => None end.

Record Token := mkToken {
  tok_type : js_string;
  tok_value : js_string;
  tok_range : Z * Z
}.

Record ParseError := mkParseError {
  err_message : js_string;
  err_index : Z
}.

(** [AST.HasConcreteInfo] *)
Record HasConcreteInfo := mkConcreteInfo {
  tokens : list Token;
  comments : list Token;
  errors : list ParseError
}.

(** What the markup parser returns: the top-level nodes and the
    document-wide token, comment and error lists. *)
Record VDocumentFragment := mkRoot {
  root_children : list VNode;
  root_tokens : list Token;
  root_comments : list Token;
  root_errors : list ParseError
}.

(** [VElement & HasConcreteInfo]: the element Object.assign was applied
    to, with the three properties it received. *)
Record TemplateBody := mkTemplateBody {
  tb_node : VNode;
  tb_info : HasConcreteInfo
}.

(** A node of the script tree with its offset range. *)
Inductive ESNode :=
| ESNodeOf (type : js_string) (range : Z * Z) (children : list ESNode).

Record ESLintProgram := mkProgram {
  prog_range : Z * Z;
  prog_body : list ESNode;
  prog_tokens : list Token;
  prog_comments : list Token;
  templateBody : option TemplateBody
}.

Record ESLintExtendedProgram (Service : Type) := mkExtended {
  ast : ESLintProgram;
  services : option (gmap string Service)
}.
Arguments mkExtended {Service} _ _.
Arguments ast {Service} _.
Arguments services {Service} _.

Inductive JsError :=
| TypeError
| ScriptSyntaxError (index : Z).

(** A gap record and the location calculator built from the tokenizer. *)
Record Gap := mkGap { gap_offset : Z; gap_length : Z }.

Record LocationCalculator := mkLocationCalculator {
  lc_gaps : list Gap;
  lc_lineTerminators : list Z
}.

(** [new HTMLTokenizer(code)] followed by [new HTMLParser(tokenizer,
    options).parse()]: the root, and the tokenizer's gaps and line
    terminators once the parser has driven it to the end. *)
Record HTMLResult := mkHTMLResult {
  html_root : VDocumentFragment;
  html_gaps : list Gap;
  html_lineTerminators : list Z
}.

(** The modules index.ts imports.  They read the options object they are
    handed; the markup parser recovers from every malformed input. *)
Record Collaborators (Service : Type) := mkCollaborators {
  parseScript : js_string → obj → JsError + ESLintExtendedProgram Service;
  parseScriptElement :
    VNode → LocationCalculator → obj → JsError + ESLintExtendedProgram Service;
  parseHTML : js_string → obj → HTMLResult;
  parser_services : gmap string Service
}.
Arguments parseScript {Service} _ _ _.
Arguments parseScriptElement {Service} _ _ _ _.
Arguments parseHTML {Service} _ _ _.
Arguments parser_services {Service} _.

(** ** index.ts *)

Definition placeholder_path : js_string := js "unknown.js".

(** [path.extname] validates its argument: anything but a string throws. *)
Definition extname_of (v : jsval) : JsError + js_string :=
  match v with
  | JStr p => inr (path_extname p)
  | _ => inl TypeError
  end.

Definition isVueFile (code : js_string) (options : obj) : JsError + bool :=
  let filePath := js_or (get options "filePath") (JStr placeholder_path) in
  match extname_of filePath with
  | inl e => inl e
  | inr ext => inr (str_eqb ext (js ".vue") || STARTS_WITH_LT_test code)
  end.

Definition isTemplateElement (node : VNode) : bool :=
  match node with
  | VElement name _ _ _ _ => str_eqb name (js "template")
  | _ => false
  end.

Definition isScriptElement (node : VNode) : bool :=
  match node with
  | VElement name _ _ _ _ => str_eqb name (js "script")
  | _ => false
  end.

Definition default_options : obj :=
  {[ "comment" := JBool true;
     "ecmaVersion" := JNum 2015;
     "loc" := JBool true;
     "range" := JBool true;
     "tokens" := JBool true ]}.

(** [Object.assign({comment: true, ...}, options || {})]: the object
    literal is allocated first, then the right operand is evaluated. *)
Definition merge_options (h : heap) (options : jsval) : loc * heap :=
  let '(target, h1) := alloc h default_options in
  let '(source, h2) :=
    if truthy options then (options, h1)
    else let '(l, h2) := alloc h1 ∅ in (JObj l, h2) in
  (target, Object_assign h2 target source).

(** [result.ast.templateBody = templateBody] *)
Definition set_templateBody (p : ESLintProgram) (t : option TemplateBody)
  : ESLintProgram :=
  {| prog_range := prog_range p; prog_body := prog_body p;
     prog_tokens := prog_tokens p; prog_comments := prog_comments p;
     templateBody := t |}.

Section Coordinator.
Context {Service : Type} (deps : Collaborators Service).

(** Lines 63-83: the markup-embedded path. *)
Definition parseVue (code : js_string) (options : obj)
  : JsError + ESLintExtendedProgram Service :=
  let html := parseHTML deps code options in
  let rootAST := html_root html in
  let locationCalcurator :=
    mkLocationCalculator (html_gaps html) (html_lineTerminators html) in
  let script := find isScriptElement (root_children rootAST) in
  let template := find isTemplateElement (root_children rootAST) in
  let parsed :=
    match script with
    | Some s => parseScriptElement deps s locationCalcurator options
    | None => parseScript deps [] options
    end in
  match parsed with
  | inl e => inl e
  | inr result =>
      let concreteInfo :=
        {| tokens := root_tokens rootAST;
           comments := root_comments rootAST;
           errors := root_errors rootAST |} in
      let templateBody :=
        match template with
        | Some t => Some (mkTemplateBody t concreteInfo)
        | None => None
        end in
      inr {| ast := set_templateBody (ast result) templateBody;
             services :=
               Some (assign_props (default ∅ (services result))
                                  (parser_services deps)) |}
  end.

(** The body of [parseForESLint] once [options] is the merged object. *)
Definition parseWith (code : js_string) (options : obj)
  : JsError + ESLintExtendedProgram Service :=
  match isVueFile code options with
  | inl e => inl e
  | inr false => parseScript deps code options
  | inr true => parseVue code options
  end.

Definition parseForESLint (h : heap) (code : js_string) (options : jsval)
  : heap * (JsError + ESLintExtendedProgram Service) :=
  let '(l, h') := merge_options h options in
  (h', parseWith code (default ∅ (h' !! l))).

Definition parse (h : heap) (code : js_string) (options : jsval)
  : heap * (JsError + ESLintProgram) :=
  let '(h', r) := parseForESLint h code options in
  (h', match r with inl e => inl e | inr x => inr (ast x) end).
End Coordinator.

(** ** The script driver and the location calculator *)

(** Modelled from the spec: ./common/location-calculator is not part of
    index.ts.  [toDocumentOffset] starts from the script offset and adds
    the length of every gap record whose offset in the extracted text is
    at most the script offset. *)
Definition toDocumentOffset (gaps : list Gap) (scriptOffset : Z) : Z :=
  scriptOffset +
  foldr (λ g acc, if gap_offset g <=? scriptOffset
                  then gap_length g + acc else acc) 0 gaps.

Definition fix_range (f : Z → Z) (r : Z * Z) : Z * Z := (f r.1, f r.2).

Fixpoint fix_node (f : Z → Z) (n : ESNode) : ESNode :=
  match n with
  | ESNodeOf t r cs => ESNodeOf t (fix_range f r) (map (fix_node f) cs)
  end.

Definition fix_token (f : Z → Z) (t : Token) : Token :=
  {| tok_type := tok_type t; tok_value := tok_value t;
     tok_range := fix_range f (tok_range t) |}.

(** Modelled from the spec: the remapping pass of ./script visits the
    program node, every node below it, every token and every comment, and
    translates both ends of each range. *)
Definition fixLocations (f : Z → Z) (p : ESLintProgram) : ESLintProgram :=
  {| prog_range := fix_range f (prog_range p);
     prog_body := map (fix_node f) (prog_body p);
     prog_tokens := map (fix_token f) (prog_tokens p);
     prog_comments := map (fix_token f) (prog_comments p);
     templateBody := templateBody p |}.

(** The inner text of a script element, the document offset at which it
    starts, and the spans of the document skipped inside it. *)
Record Extraction := mkExtraction {
  ex_text : js_string;
  ex_start : Z;
  ex_skipped : list Gap
}.

(** The gap records of an extraction: everything before the starting
    offset, then the skipped spans. *)
Definition extraction_gaps (ex : Extraction) : list Gap :=
  mkGap 0 (ex_start ex) :: ex_skipped ex.

(** The inner text of a script element and the document offset at which
    it starts: the text child the element begins with, or the empty text
    at the end of the start tag when it has none. *)
Definition script_text (script : VNode) : JsError + js_string * Z :=
  match node_children script with
  | VText value range :: _ => inr (value, range.1)
  | _ =>
      match node_startTag script with
      | Some st => inr ([], st.2)
      | None => inl TypeError
      end
  end.

(** The script parser run on a text, every position of its outcome (also
    that of a syntax error) remapped to document coordinates. *)
Definition parse_and_remap {Service} (gaps : list Gap)
    (parser : js_string → obj → JsError + ESLintExtendedProgram Service)
    (code : js_string) (options : obj)
  : JsError + ESLintExtendedProgram Service :=
  let f := toDocumentOffset gaps in
  match parser code options with
  | inl (ScriptSyntaxError i) => inl (ScriptSyntaxError (f i))
  | inl e => inl e
  | inr r => inr {| ast := fixLocations f (ast r); services := services r |}
  end.

(** The token that stands for a tag of the script element. *)
Definition script_tag_token (value : string) (range : Z * Z) : Token :=
  {| tok_type := js "Punctuator"; tok_value := js value; tok_range := range |}.

Definition start_tag_tokens (script : VNode) : list Token :=
  match node_startTag script with
  | Some r => [script_tag_token "<script>" r]
  | None => []
  end.

Definition end_tag_tokens (script : VNode) : list Token :=
  match node_endTag script with
  | Some r => [script_tag_token "</script>" r]
  | None => []
  end.

(** The start tag token is put in front of the token list, the end tag
    token behind it. *)
Definition with_tag_tokens (script : VNode) (p : ESLintProgram)
  : ESLintProgram :=
  {| prog_range := prog_range p;
     prog_body := prog_body p;
     prog_tokens := start_tag_tokens script ++ prog_tokens p ++
                    end_tag_tokens script;
     prog_comments := prog_comments p;
     templateBody := templateBody p |}.

(** [result.ast.tokens != null]: a program here always carries a token
    list, empty when the script parser kept none; the script parser keeps
    one when the [tokens] option is [true]. *)
Definition tokens_kept (options : obj) : bool :=
  match get options "tokens" with
  | JBool true => true
  | _ => false
  end.

(** Modelled from the spec: [parseScriptElement] of ./script is not part
    of index.ts.  It extracts the inner text of the script block and its
    starting offset, builds the gap records (everything before the
    starting offset, then the spans [skipped] inside the text), parses the
    text with the script parser under the same options and remaps every
    position.  ./script then adds, when the program has a token list, a
    token for the start tag of the element in front of the list and a
    token for its end tag, if it has one, behind it. *)
Definition driveScript {Service}
    (skipped : VNode → LocationCalculator → list Gap)
    (parser : js_string → obj → JsError + ESLintExtendedProgram Service)
    (script : VNode) (calc : LocationCalculator) (options : obj)
  : JsError + ESLintExtendedProgram Service :=
  match script_text script with
  | inl e => inl e
  | inr (code, offset) =>
      let ex := mkExtraction code offset (skipped script calc) in
      match parse_and_remap (extraction_gaps ex) parser code options with
      | inl e => inl e
      | inr r =>
          inr {| ast := if tokens_kept options
                        then with_tag_tokens script (ast r)
                        else ast r;
                 services := services r |}
      end
  end.

(** Every offset recorded in a script tree. *)
Fixpoint node_positions (n : ESNode) : list Z :=
  match n with
  | ESNodeOf _ r cs => r.1 :: r.2 :: flat_map node_positions cs
  end.

Definition token_positions (t : Token) : list Z :=
  [(tok_range t).1; (tok_range t).2].

Definition program_positions (p : ESLintProgram) : list Z :=
  (prog_range p).1 :: (prog_range p).2 ::
  flat_map node_positions (prog_body p) ++
  flat_map token_positions (prog_tokens p) ++
  flat_map token_positions (prog_comments p).

Definition total_gap_length (gaps : list Gap) : Z :=
  foldr (λ g acc, gap_length g + acc) 0 gaps.

(** ** Specification vocabulary *)

(** The options object a caller handed over, as [Object.assign] sees it. *)
Definition caller_options (h : heap) (options : jsval) : obj :=
  match options with
  | JObj l => default ∅ (h !! l)
  | _ => ∅
  end.

(** The caller passes an options object that lives in the heap, [null] or
    [undefined]. *)
Definition options_wf (h : heap) (options : jsval) : Prop :=
  match options with
  | JUndefined | JNull => True
  | JObj l => is_Some (h !! l)
  | _ => False
  end.

(** The merged options [parseForESLint] works with. *)
Definition effective_options (h : heap) (options : jsval) : obj :=
  let '(l, h') := merge_options h options in default ∅ (h' !! l).

(** [filePath] has the type index.ts casts it to: a string, or nothing. *)
Definition filePath_typed (o : obj) : Prop :=
  match get o "filePath" with
  | JUndefined | JNull | JStr _ => True
  | _ => False
  end.

(** The file path a caller supplied, if any. *)
Definition supplied_path (o : obj) : option js_string :=
  match get o "filePath" with
  | JStr p => Some p
  | _ => None
  end.

(** The text is a run of white space followed by [<]. *)
Definition begins_with_lt (code : js_string) : Prop :=
  ∃ ws rest, Forall (λ c, is_js_space c = true) ws ∧
             code = ws ++ CHAR_LT :: rest.

(** [r] is the first entry of [l] that satisfies [p], or nothing when no
    entry does. *)
Definition first_match {A} (p : A → bool) (l : list A) (r : option A) : Prop :=
  match r with
  | Some x => ∃ l1 l2, l = l1 ++ x :: l2 ∧ p x = true ∧
                       Forall (λ y, p y = false) l1
  | None => Forall (λ y, p y = false) l
  end.

(** Modelled from the spec: the script parser of ./script returns a
    standard program tree, which has no template body. *)
Definition standard_script_parser {Service} (deps : Collaborators Service)
  : Prop :=
  ∀ code o r, parseScript deps code o = inr r → templateBody (ast r) = None.

(** Modelled from the spec: the script parser of ./script accepts the empty
    text under every configuration and yields a program without statements,
    tokens or comments. *)
Definition parses_empty_text {Service} (deps : Collaborators Service)
  : Prop :=
  ∀ o, ∃ r, parseScript deps [] o = inr r ∧ prog_body (ast r) = [] ∧
            prog_tokens (ast r) = [] ∧ prog_comments (ast r) = [].

(** Every position the script parser reports is local to the text it was
    given. *)
Definition positions_local {Service} (deps : Collaborators Service) : Prop :=
  ∀ text o r, parseScript deps text o = inr r →
    Forall (λ q, 0 ≤ q ≤ Z.of_nat (length text)) (program_positions (ast r)).

(** An extraction fits a document of length [len]: the skipped spans sit
    inside the extracted text and the content ends inside the document. *)
Definition extraction_fits (ex : Extraction) (len : Z) : Prop :=
  0 ≤ ex_start ex ∧
  Forall (λ g, 0 ≤ gap_length g) (ex_skipped ex) ∧
  ex_start ex + Z.of_nat (length (ex_text ex)) +
    total_gap_length (ex_skipped ex) ≤ len.

(** The document offset at which the script content ends. *)
Definition content_end (ex : Extraction) : Z :=
  ex_start ex + Z.of_nat (length (ex_text ex)) +
  total_gap_length (ex_skipped ex).

(** The tags of a script element enclose its content inside a document
    of length [len]: the start tag ends no later than the content starts,
    the end tag starts no earlier than the content ends. *)
Definition tags_enclose (script : VNode) (ex : Extraction) (len : Z) : Prop :=
  match node_startTag script with
  | Some st => 0 ≤ st.1 ≤ st.2 ∧ st.2 ≤ ex_start ex
  | None => True
  end ∧
  match node_endTag script with
  | Some et => content_end ex ≤ et.1 ∧ et.1 ≤ et.2 ≤ len
  | None => True
  end.

(** The node is an element with the given tag name. *)
Definition element_named (name : js_string) (n : VNode) : Prop :=
  ∃ range startTag endTag children,
    n = VElement name range startTag endTag children.

(** [r] is the first entry of [l] with the property [P], or nothing when
    no entry has it. *)
Definition first_such {A} (P : A → Prop) (l : list A) (r : option A) : Prop :=
  match r with
  | Some x => ∃ l1 l2, l = l1 ++ x :: l2 ∧ P x ∧ Forall (λ y, ¬ P y) l1
  | None => Forall (λ y, ¬ P y) l
  end.

(** The value of [result] at line 68: the script block handed to
    [parseScriptElement], or the empty text handed to [parseScript]. *)
Definition script_result {Service} (deps : Collaborators Service)
    (code : js_string) (o : obj) : JsError + ESLintExtendedProgram Service :=
  let html := parseHTML deps code o in
  match find isScriptElement (root_children (html_root html)) with
  | Some s =>
      parseScriptElement deps s
        (mkLocationCalculator (html_gaps html) (html_lineTerminators html)) o
  | None => parseScript deps [] o
  end.

(** The document-wide lists of the markup parser, as concrete info. *)
Definition concrete_info (root : VDocumentFragment) : HasConcreteInfo :=
  {| tokens := root_tokens root;
     comments := root_comments root;
     errors := root_errors root |}.

(** Induction over a script tree and the trees below it. *)
Fixpoint ESNode_forall_ind (P : ESNode → Prop)
    (step : ∀ t r cs, Forall P cs → P (ESNodeOf t r cs))
    (n : ESNode) : P n :=
  match n with
  | ESNodeOf t r cs =>
      step t r cs
        ((fix all (l : list ESNode) : Forall P l :=
            match l with
            | [] => @List.Forall_nil _ P
            | c :: l' =>
                @List.Forall_cons _ P c l' (ESNode_forall_ind P step c) (all l')
            end) cs)
  end.

(** The state of the loop of [path.extname] once the characters at the
    indices [n] and above have been read: what [endPos], [startDot],
    [matchedSlash] and [preDotState] say about those characters. *)
Definition extname_inv (p : js_string) (n : nat) (st : ExtState) : Prop :=
  let ch (j : nat) := nth j p 0%N in
  let len := Z.of_nat (length p) in
  (endPos st = -1 →
     startDot st = -1 ∧ preDotState st = 0 ∧ matchedSlash st = true ∧
     ∀ j : nat, Z.of_nat n ≤ Z.of_nat j < len → ch j = CHAR_FORWARD_SLASH) ∧
  (endPos st ≠ -1 →
     matchedSlash st = false ∧
     Z.of_nat n < endPos st ≤ len ∧
     (∀ j : nat, endPos st ≤ Z.of_nat j < len → ch j = CHAR_FORWARD_SLASH) ∧
     (∀ j : nat, Z.of_nat n ≤ Z.of_nat j < endPos st →
                 ch j ≠ CHAR_FORWARD_SLASH) ∧
     (startDot st = -1 →
        preDotState st = 0 ∧
        ∀ j : nat, Z.of_nat n ≤ Z.of_nat j < endPos st → ch j ≠ CHAR_DOT) ∧
     (startDot st ≠ -1 →
        Z.of_nat n ≤ startDot st < endPos st ∧
        (∀ j : nat, Z.of_nat j = startDot st → ch j = CHAR_DOT) ∧
        (∀ j : nat, startDot st < Z.of_nat j < endPos st → ch j ≠ CHAR_DOT) ∧
        (preDotState st = 0 ↔ Z.of_nat n = startDot st))).

(** The last component of the path, trailing slashes aside, is at least
    one character followed by [.vue]. *)
Definition has_vue_extension (p : js_string) : Prop :=
  ∃ pre c slashes,
    p = pre ++ c :: js ".vue" ++ slashes ∧
    c ≠ CHAR_FORWARD_SLASH ∧
    Forall (λ x, x = CHAR_FORWARD_SLASH) slashes.

(** ** A sample instance of the collaborators

    Small stand-ins for the markup parser and the script parser, used to
    run the coordinator on concrete documents. *)
Module Sample.
Definition doc_both : js_string :=
  js "<template><div/></template><script>var x = 1</script>".
Definition doc_template_only : js_string := js "<template></template>".
Definition doc_unclosed : js_string := js "<script>".
Definition doc_two_scripts : js_string :=
  js "<script>a</script><script>b</script>".
Definition doc_plain : js_string := js "const x = 1;".

Definition template_both : VNode :=
  VElement (js "template") (0, 27) (0, 10) (Some (16, 27))
    [VElement (js "div") (10, 16) (10, 16) None []].
Definition script_both : VNode :=
  VElement (js "script") (27, 53) (27, 35) (Some (44, 53))
    [VText (js "var x = 1") (35, 44)].
Definition script_a : VNode :=
  VElement (js "script") (0, 18) (0, 8) (Some (9, 18)) [VText (js "a") (8, 9)].
Definition script_b : VNode :=
  VElement (js "script") (18, 36) (18, 26) (Some (27, 36))
    [VText (js "b") (26, 27)].

Definition tag_token (v : string) (r : Z * Z) : Token :=
  {| tok_type := js "HTMLTagOpen"; tok_value := js v; tok_range := r |}.

Definition root_both : VDocumentFragment :=
  {| root_children := [template_both; script_both];
     root_tokens := [tag_token "template" (0, 9); tag_token "div" (10, 14);
                     tag_token "script" (27, 34)];
     root_comments := [];
     root_errors := [] |}.

Definition root_template_only : VDocumentFragment :=
  {| root_children :=
       [VElement (js "template") (0, 21) (0, 10) (Some (10, 21)) []];
     root_tokens := [tag_token "template" (0, 9)];
     root_comments := [];
     root_errors := [] |}.

Definition root_unclosed : VDocumentFragment :=
  {| root_children := [VElement (js "script") (0, 8) (0, 8) None []];
     root_tokens := [tag_token "script" (0, 7)];
     root_comments := [];
     root_errors := [mkParseError (js "eof-in-script") 8] |}.

Definition root_two_scripts : VDocumentFragment :=
  {| root_children := [script_a; script_b];
     root_tokens := [tag_token "script" (0, 7); tag_token "script" (18, 25)];
     root_comments := [];
     root_errors := [] |}.

Definition markup_parser (code : js_string) (options : obj) : HTMLResult :=
  let root :=
    if bool_decide (code = doc_both) then root_both
    else if bool_decide (code = doc_template_only) then root_template_only
    else if bool_decide (code = doc_unclosed) then root_unclosed
    else if bool_decide (code = doc_two_scripts) then root_two_scripts
    else mkRoot [] [] [] [] in
  mkHTMLResult root [] [].

(** A script parser that reads a non-empty text as one statement made
    of one token, kept when the [tokens] option asks for it, and the empty
    text as the empty program. *)
Definition script_parser (text : js_string) (options : obj)
  : JsError + ESLintExtendedProgram string :=
  let whole := (0, Z.of_nat (length text)) in
  inr {| ast :=
           {| prog_range := whole;
              prog_body :=
                match text with
                | [] => []
                | _ => [ESNodeOf (js "ExpressionStatement") whole []]
                end;
              prog_tokens :=
                match text with
                | [] => []
                | _ => if tokens_kept options
                       then [mkToken (js "Identifier") text whole] else []
                end;
              prog_comments := [];
              templateBody := None |};
         services := None |}.

(** The sample documents have no skipped spans. *)
Definition skipped (script : VNode) (calc : LocationCalculator) : list Gap :=
  [].

Definition deps : Collaborators string :=
  {| parseScript := script_parser;
     parseScriptElement := driveScript skipped script_parser;
     parseHTML := markup_parser;
     parser_services :=
       {[ "registerTemplateBodyVisitor" := "template-body-visitor" ]} |}.

(** A script parser that also attaches services of its own. *)
Definition script_parser_with_services (text : js_string) (options : obj)
  : JsError + ESLintExtendedProgram string :=
  match script_parser text options with
  | inr r =>
      inr {| ast := ast r;
             services :=
               Some {[ "registerTemplateBodyVisitor" := "theirs";
                       "getTypeChecker" := "type-checker" ]} |}
  | inl e => inl e
  end.

Definition deps_with_services : Collaborators string :=
  {| parseScript := script_parser_with_services;
     parseScriptElement := driveScript skipped script_parser_with_services;
     parseHTML := markup_parser;
     parser_services :=
       {[ "registerTemplateBodyVisitor" := "template-body-visitor" ]} |}.

(** A heap holding one caller-made options object. *)
Definition caller_loc : loc := 1%positive.
Definition caller_heap (o : obj) : heap := {[ caller_loc := o ]}.
End Sample.

(** * Properties *)

(** ** The runtime pieces *)

Lemma STARTS_WITH_LT_test_spec (code : js_string) :
  STARTS_WITH_LT_test code = true ↔ begins_with_lt code.
Proof.
  split.
  - induction code as [|c rest IH]; simpl; [done|].
    destruct (c =? CHAR_LT)%N eqn:Hc.
    + intros _. apply N.eqb_eq in Hc as ->. by exists [], rest.
    + destruct (is_js_space c) eqn:Hs; [|done].
      intros (ws & rest' & Hws & ->)%IH.
      exists (c :: ws), rest'. split; [by constructor|done].
  - intros (ws & rest & Hws & ->).
    induction Hws as [|c ws Hc _ IH]; simpl.
    + reflexivity.
    + destruct (c =? CHAR_LT)%N; [done|]. by rewrite Hc.
Qed.

Lemma merge_options_falsy (h : heap) (options : jsval) :
  truthy options = false →
  ∃ l h', merge_options h options = (l, h') ∧
          (l ∉ dom h) ∧
          h' !! l = Some default_options ∧
          ∀ l0, l0 ∈ dom h → h' !! l0 = h !! l0.
Proof.
  intros Hf. unfold merge_options, alloc. rewrite Hf.
  remember (fresh (dom h)) as l eqn:El.
  assert (Hl : l ∉ dom h) by (subst l; apply is_fresh).
  remember (<[l := default_options]> h) as h1 eqn:Eh1.
  remember (fresh (dom h1)) as l2 eqn:El2.
  assert (Hl2 : l2 ∉ dom h1) by (subst l2; apply is_fresh).
  assert (Hd1 : dom h1 = {[l]} ∪ dom h) by (subst h1; apply dom_insert_L).
  rewrite Hd1 in Hl2. apply not_elem_of_union in Hl2 as [Hne Hl2].
  apply not_elem_of_singleton in Hne.
  eexists _, _. split; [reflexivity|]. split; [done|].
  unfold Object_assign. rewrite lookup_insert_ne by done.
  assert (H1 : h1 !! l = Some default_options)
    by (subst h1; apply lookup_insert_eq).
  rewrite H1. simpl. rewrite !lookup_insert_eq. simpl.
  split; [by rewrite (left_id_L ∅ (∪))|].
  intros l0 Hl0.
  assert (l ≠ l0) by congruence. assert (l2 ≠ l0) by congruence.
  rewrite !lookup_insert_ne by done. subst h1. by rewrite lookup_insert_ne.
Qed.

Lemma merge_options_spec (h : heap) (options : jsval) :
  options_wf h options →
  ∃ l h', merge_options h options = (l, h') ∧
          (l ∉ dom h) ∧
          h' !! l = Some (caller_options h options ∪ default_options) ∧
          ∀ l0, l0 ∈ dom h → h' !! l0 = h !! l0.
Proof.
  intros Hwf.
  destruct options as [| |b|n|s0|lo]; simpl in Hwf; try done.
  - destruct (merge_options_falsy h JUndefined eq_refl)
      as (l & h' & ? & ? & ? & ?).
    exists l, h'. simpl. by rewrite (left_id_L ∅ (∪)).
  - destruct (merge_options_falsy h JNull eq_refl)
      as (l & h' & ? & ? & ? & ?).
    exists l, h'. simpl. by rewrite (left_id_L ∅ (∪)).
  - destruct Hwf as [co Hco].
    unfold merge_options, alloc. simpl.
    remember (fresh (dom h)) as l eqn:El.
    assert (Hl : l ∉ dom h) by (subst l; apply is_fresh).
    assert (Hlo : lo ∈ dom h) by (apply elem_of_dom; by exists co).
    assert (Hne : l ≠ lo) by congruence.
    eexists _, _. split; [reflexivity|]. split; [done|].
    unfold Object_assign. rewrite lookup_insert_eq. simpl.
    rewrite lookup_insert_eq, lookup_insert_ne by done.
    split; [done|].
    intros l0 Hl0. assert (l ≠ l0) by congruence.
    by rewrite !lookup_insert_ne.
Qed.

Lemma effective_options_spec (h : heap) (options : jsval) :
  options_wf h options →
  effective_options h options = caller_options h options ∪ default_options.
Proof.
  intros (l & h' & Hm & _ & Hl & _)%merge_options_spec.
  unfold effective_options. rewrite Hm, Hl. done.
Qed.

Lemma parseForESLint_result {Service} (deps : Collaborators Service)
    (h : heap) (code : js_string) (options : jsval) :
  (parseForESLint deps h code options).2 =
  parseWith deps code (effective_options h options).
Proof.
  unfold parseForESLint, effective_options.
  by destruct (merge_options h options).
Qed.

Lemma default_options_no_filePath : default_options !! "filePath" = None.
Proof. reflexivity. Qed.

Lemma get_merged_filePath (o : obj) :
  get (o ∪ default_options) "filePath" = get o "filePath".
Proof.
  unfold get. rewrite lookup_union, default_options_no_filePath.
  by destruct (o !! "filePath").
Qed.

Lemma placeholder_extension : path_extname placeholder_path = js ".js".
Proof. vm_compute. reflexivity. Qed.

Lemma placeholder_not_vue :
  str_eqb (path_extname placeholder_path) (js ".vue") = false.
Proof. vm_compute. reflexivity. Qed.

Lemma empty_path_not_vue : str_eqb (path_extname []) (js ".vue") = false.
Proof. vm_compute. reflexivity. Qed.

Lemma isVueFile_falsy (code : js_string) (o : obj) :
  truthy (get o "filePath") = false →
  isVueFile code o = inr (STARTS_WITH_LT_test code).
Proof.
  intros Hf. unfold isVueFile, js_or. rewrite Hf.
  cbn [extname_of]. by rewrite placeholder_not_vue.
Qed.

Lemma isVueFile_string (code : js_string) (o : obj) (p : js_string) :
  get o "filePath" = JStr p →
  isVueFile code o =
  inr (str_eqb (path_extname p) (js ".vue") || STARTS_WITH_LT_test code).
Proof.
  intros Hp. destruct (decide (p = [])) as [->|Hne].
  - rewrite isVueFile_falsy by (by rewrite Hp).
    by rewrite empty_path_not_vue.
  - unfold isVueFile, js_or. rewrite Hp. cbn [truthy].
    rewrite bool_decide_eq_false_2 by done. reflexivity.
Qed.

(** ** The options merge *)

(** C10: the effective configuration is the caller's options (nothing when
    [options] is [null] or [undefined]) merged over the defaults
    comment=true, ecmaVersion=2015, loc=true, range=true, tokens=true, the
    caller's value winning on every key; the merge goes into a freshly
    allocated object, every object the caller holds, the options object
    included, is the same after the call. *)
Theorem options_merged_over_defaults {Service} (deps : Collaborators Service)
    (h : heap) (code : js_string) (options : jsval) :
  options_wf h options →
  ∃ l h' merged,
    merge_options h options = (l, h') ∧
    (l ∉ dom h) ∧
    h' !! l = Some merged ∧
    merged = caller_options h options ∪ default_options ∧
    (∀ k v, caller_options h options !! k = Some v → merged !! k = Some v) ∧
    (∀ k, caller_options h options !! k = None →
          merged !! k = default_options !! k) ∧
    default_options !! "comment" = Some (JBool true) ∧
    default_options !! "ecmaVersion" = Some (JNum 2015) ∧
    default_options !! "loc" = Some (JBool true) ∧
    default_options !! "range" = Some (JBool true) ∧
    default_options !! "tokens" = Some (JBool true) ∧
    size default_options = 5%nat ∧
    (∀ l0, l0 ∈ dom h → h' !! l0 = h !! l0) ∧
    parseForESLint deps h code options = (h', parseWith deps code merged).
Proof.
  intros Hwf.
  destruct (merge_options_spec h options Hwf) as (l & h' & Hm & Hl & Hl' & Hk).
  exists l, h', (caller_options h options ∪ default_options).
  repeat split; try done.
  - intros k v Hc. by apply lookup_union_Some_l.
  - intros k Hc. by apply lookup_union_r.
  - unfold parseForESLint. rewrite Hm, Hl'. done.
Qed.

Lemma options_merged_over_defaults_witness :
  ∃ l h', merge_options
            (Sample.caller_heap {[ "ecmaVersion" := JNum 2017 ]})
            (JObj Sample.caller_loc) = (l, h') ∧
          get (default ∅ (h' !! l)) "ecmaVersion" = JNum 2017 ∧
          get (default ∅ (h' !! l)) "tokens" = JBool true ∧
          h' !! Sample.caller_loc = Some {[ "ecmaVersion" := JNum 2017 ]}.
Proof.
  destruct (options_merged_over_defaults Sample.deps
              (Sample.caller_heap {[ "ecmaVersion" := JNum 2017 ]})
              Sample.doc_plain (JObj Sample.caller_loc))
    as (l & h' & merged & Hm & _ & Hl & -> & _ & _ & _ & _ & _ & _ & _ & _ & Hk & _).
  - vm_compute. eauto.
  - exists l, h'. split; [exact Hm|]. rewrite Hl. simpl.
    split; [reflexivity|]. split; [reflexivity|].
    rewrite Hk; [reflexivity|]. vm_compute. reflexivity.
Defined.

(** ** The file classifier *)

Lemma str_eqb_true (a b : js_string) : str_eqb a b = true ↔ a = b.
Proof. unfold str_eqb. apply bool_decide_eq_true. Qed.

Lemma isVueFile_classifies (code : js_string) (o : obj) :
  filePath_typed o →
  ∃ b, isVueFile code o = inr b ∧
       (b = true ↔
        (∃ p, supplied_path o = Some p ∧ path_extname p = js ".vue") ∨
        begins_with_lt code).
Proof.
  unfold filePath_typed, supplied_path.
  destruct (get o "filePath") as [| |?|?|p|?] eqn:Hfp; try done; intros _.
  - exists (STARTS_WITH_LT_test code).
    split; [apply isVueFile_falsy; by rewrite Hfp|].
    rewrite STARTS_WITH_LT_test_spec. split; [auto|].
    by intros [(p & ? & _)|?].
  - exists (STARTS_WITH_LT_test code).
    split; [apply isVueFile_falsy; by rewrite Hfp|].
    rewrite STARTS_WITH_LT_test_spec. split; [auto|].
    by intros [(p & ? & _)|?].
  - eexists. split; [by apply isVueFile_string|].
    rewrite orb_true_iff, str_eqb_true, STARTS_WITH_LT_test_spec.
    split.
    + intros [?|?]; [left; by exists p|by right].
    + intros [(p' & [= <-] & ?)|?]; [by left|by right].
Qed.

(** C1: parseForESLint takes the markup-embedded path exactly when the
    supplied file path has the extension .vue or the text is white space
    followed by [<], and the plain-script path otherwise; a matching
    extension decides alone, whatever the text is; for every text and every
    options object whose filePath is a string or missing the classifier
    returns an answer. *)
Theorem classifier_decides_path {Service} (deps : Collaborators Service)
    (h : heap) (code : js_string) (options : jsval) :
  options_wf h options →
  filePath_typed (caller_options h options) →
  let o := effective_options h options in
  let by_extension :=
    ∃ p, supplied_path (caller_options h options) = Some p ∧
         path_extname p = js ".vue" in
  ∃ b, isVueFile code o = inr b ∧
       (b = true ↔ by_extension ∨ begins_with_lt code) ∧
       (by_extension → b = true) ∧
       (parseForESLint deps h code options).2 =
         (if b then parseVue deps code o else parseScript deps code o).
Proof.
  intros Hwf Hty o by_extension.
  assert (Hget : get o "filePath" = get (caller_options h options) "filePath").
  { unfold o. rewrite effective_options_spec by done.
    apply get_merged_filePath. }
  destruct (isVueFile_classifies code o) as (b & Hb & Hiff).
  { unfold filePath_typed. by rewrite Hget. }
  assert (Hiff' : b = true ↔ by_extension ∨ begins_with_lt code).
  { rewrite Hiff. unfold by_extension, supplied_path. by rewrite Hget. }
  exists b. split; [done|]. split; [done|]. split.
  - intros Hext. apply Hiff'. by left.
  - rewrite parseForESLint_result. fold o. unfold parseWith.
    rewrite Hb. by destruct b.
Qed.

Lemma classifier_decides_path_witness :
  (parseForESLint Sample.deps
     (Sample.caller_heap {[ "filePath" := JStr (js "a.js") ]})
     Sample.doc_plain (JObj Sample.caller_loc)).2 =
  Sample.script_parser Sample.doc_plain
    (effective_options
       (Sample.caller_heap {[ "filePath" := JStr (js "a.js") ]})
       (JObj Sample.caller_loc)).
Proof.
  destruct (classifier_decides_path Sample.deps
              (Sample.caller_heap {[ "filePath" := JStr (js "a.js") ]})
              Sample.doc_plain (JObj Sample.caller_loc))
    as (b & Hb & _ & _ & Hrun).
  - vm_compute. eauto.
  - vm_compute. exact I.
  - rewrite Hrun.
    assert (Hfalse : b = false).
    { assert (Hc : isVueFile Sample.doc_plain
                     (effective_options
                        (Sample.caller_heap
                           {[ "filePath" := JStr (js "a.js") ]})
                        (JObj Sample.caller_loc)) = inr false)
        by (vm_compute; reflexivity).
      rewrite Hc in Hb. by injection Hb. }
    rewrite Hfalse. reflexivity.
Defined.

(** The placeholder that stands in for a missing file path does have an
    extension: [.js]. *)
Lemma placeholder_is_not_extensionless :
  js_or (get (effective_options ∅ JUndefined) "filePath")
        (JStr placeholder_path) = JStr (js "unknown.js") ∧
  path_extname (js "unknown.js") = js ".js" ∧
  path_extname (js "unknown.js") ≠ [].
Proof. vm_compute. repeat split; done. Qed.

(** C4, amended: when no file path is supplied (filePath is missing,
    undefined, null or empty) the classifier substitutes the placeholder
    name unknown.js, whose extension .js is not .vue, so the extension
    check does not match and the classification is the outcome of the
    leading-[<] test on the text alone. *)
Theorem missing_path_falls_through_to_sniff (code : js_string) (o : obj) :
  truthy (get o "filePath") = false →
  js_or (get o "filePath") (JStr placeholder_path) = JStr (js "unknown.js") ∧
  path_extname (js "unknown.js") = js ".js" ∧
  str_eqb (js ".js") (js ".vue") = false ∧
  isVueFile code o = inr (STARTS_WITH_LT_test code) ∧
  (STARTS_WITH_LT_test code = true ↔ begins_with_lt code).
Proof.
  intros Hf. split; [unfold js_or; by rewrite Hf|].
  split; [apply placeholder_extension|].
  split; [vm_compute; reflexivity|].
  split; [by apply isVueFile_falsy|apply STARTS_WITH_LT_test_spec].
Qed.

Lemma missing_path_falls_through_to_sniff_witness :
  isVueFile Sample.doc_both default_options = inr true ∧
  isVueFile Sample.doc_plain default_options = inr false.
Proof.
  split.
  - destruct (missing_path_falls_through_to_sniff Sample.doc_both
                default_options) as (_ & _ & _ & -> & _);
      [vm_compute; reflexivity|vm_compute; reflexivity].
  - destruct (missing_path_falls_through_to_sniff Sample.doc_plain
                default_options) as (_ & _ & _ & -> & _);
      [vm_compute; reflexivity|vm_compute; reflexivity].
Defined.

(** ** The markup-embedded path *)

Lemma find_first_match {A} (p : A → bool) (l : list A) :
  first_match p l (find p l).
Proof.
  induction l as [|x l IH]; simpl; [constructor|].
  destruct (p x) eqn:Hx.
  - exists [], l. by repeat split.
  - destruct (find p l) as [y|]; simpl in *.
    + destruct IH as (l1 & l2 & -> & Hy & Hl1).
      exists (x :: l1), l2. repeat split; [done|by constructor].
    + by constructor.
Qed.

Lemma find_top_level {A} (p : A → bool) (l : list A) (x : A) :
  find p l = Some x → x ∈ l ∧ p x = true.
Proof.
  intros Hf. pose proof (find_first_match p l) as Hm. rewrite Hf in Hm.
  destruct Hm as (l1 & l2 & -> & Hx & _). split; [|done].
  apply elem_of_app. right. by left.
Qed.

Lemma isScriptElement_name (n : VNode) :
  isScriptElement n = true ↔ node_name n = Some (js "script").
Proof.
  destruct n; simpl; [|done..]. rewrite str_eqb_true.
  split; [by intros ->|by intros [= ->]].
Qed.

Lemma isTemplateElement_name (n : VNode) :
  isTemplateElement n = true ↔ node_name n = Some (js "template").
Proof.
  destruct n; simpl; [|done..]. rewrite str_eqb_true.
  split; [by intros ->|by intros [= ->]].
Qed.

(** What the markup path returns once the script driver has. *)
Lemma parseVue_assembles {Service} (deps : Collaborators Service)
    (code : js_string) (o : obj) (r : ESLintExtendedProgram Service) :
  script_result deps code o = inr r →
  let root := html_root (parseHTML deps code o) in
  parseVue deps code o =
  inr {| ast := set_templateBody (ast r)
                  ((λ t, mkTemplateBody t (concrete_info root)) <$>
                   find isTemplateElement (root_children root));
         services := Some (parser_services deps ∪ default ∅ (services r)) |}.
Proof.
  unfold script_result, parseVue. cbv zeta. intros ->.
  by destruct (find isTemplateElement _).
Qed.

(** The markup path fails only where the script driver does. *)
Lemma parseVue_fails {Service} (deps : Collaborators Service)
    (code : js_string) (o : obj) (e : JsError) :
  parseVue deps code o = inl e ↔ script_result deps code o = inl e.
Proof.
  unfold script_result, parseVue. cbv zeta.
  destruct (match find isScriptElement _ with Some _ => _ | None => _ end);
    [done|].
  split; [by destruct (find isTemplateElement _)|done].
Qed.

Lemma parseForESLint_vue {Service} (deps : Collaborators Service)
    (h : heap) (code : js_string) (options : jsval) :
  isVueFile code (effective_options h options) = inr true →
  (parseForESLint deps h code options).2 =
  parseVue deps code (effective_options h options).
Proof. intros Hv. rewrite parseForESLint_result. unfold parseWith. by rewrite Hv. Qed.

Lemma isScriptElement_spec (n : VNode) :
  isScriptElement n = true ↔ element_named (js "script") n.
Proof.
  split.
  - destruct n as [name range st et cs| |]; simpl; [|done..].
    rewrite str_eqb_true. intros ->. by exists range, st, et, cs.
  - intros (range & st & et & cs & ->). simpl. by apply str_eqb_true.
Qed.

Lemma isTemplateElement_spec (n : VNode) :
  isTemplateElement n = true ↔ element_named (js "template") n.
Proof.
  split.
  - destruct n as [name range st et cs| |]; simpl; [|done..].
    rewrite str_eqb_true. intros ->. by exists range, st, et, cs.
  - intros (range & st & et & cs & ->). simpl. by apply str_eqb_true.
Qed.

(** [find] returns the first entry with the property the test decides. *)
Lemma find_first_such {A} (p : A → bool) (P : A → Prop) (l : list A) :
  (∀ x, p x = true ↔ P x) →
  first_such P l (find p l).
Proof.
  intros Hp. pose proof (find_first_match p l) as Hm.
  assert (Hnot : ∀ l', Forall (λ y, p y = false) l' →
                       Forall (λ y, ¬ P y) l').
  { intros l' Hl'. eapply Forall_impl; [exact Hl'|].
    intros y Hy HP. apply Hp in HP. congruence. }
  destruct (find p l) as [x|]; simpl in *.
  - destruct Hm as (l1 & l2 & -> & Hx & Hl1).
    exists l1, l2. split; [done|]. split; [by apply Hp|by apply Hnot].
  - by apply Hnot.
Qed.

Lemma find_determined {A} (p : A → bool) (P : A → Prop)
    (l1 l2 : list A) (x : A) :
  (∀ y, p y = true ↔ P y) →
  P x → Forall (λ y, ¬ P y) l1 →
  find p (l1 ++ x :: l2) = Some x.
Proof.
  intros Hp Hx Hl1. induction Hl1 as [|y l1 Hy _ IH]; simpl.
  - apply Hp in Hx. by rewrite Hx.
  - destruct (p y) eqn:Hpy; [|done]. by apply Hp in Hpy.
Qed.

Lemma find_none {A} (p : A → bool) (P : A → Prop) (l : list A) :
  (∀ y, p y = true ↔ P y) →
  Forall (λ y, ¬ P y) l → find p l = None.
Proof.
  intros Hp Hl. induction Hl as [|y l Hy _ IH]; simpl; [done|].
  destruct (p y) eqn:Hpy; [|done]. by apply Hp in Hpy.
Qed.

(** C5: the script block is the first top-level child that is an Element
    named script, the template block the first top-level child that is an
    Element named template, each found on its own in document order: the
    children before the chosen one are not such elements, and when no
    top-level child is one, nothing is chosen.  A block that is found is
    one of the root's own children, so an element nested below them is
    never chosen; whatever follows the first such element, duplicates
    included, plays no part in the choice, and the coordinator raises no
    error of its own: it fails only where parsing the chosen script
    fails. *)
Theorem first_top_level_blocks {Service} (deps : Collaborators Service)
    (code : js_string) (o : obj) :
  let html := parseHTML deps code o in
  let cs := root_children (html_root html) in
  let calc :=
    mkLocationCalculator (html_gaps html) (html_lineTerminators html) in
  let is_script := element_named (js "script") in
  let is_template := element_named (js "template") in
  ∃ script template,
    first_such is_script cs script ∧
    first_such is_template cs template ∧
    (∀ s, script = Some s → s ∈ cs ∧ node_name s = Some (js "script")) ∧
    (∀ t, template = Some t → t ∈ cs ∧ node_name t = Some (js "template")) ∧
    (∀ l1 x l2, cs = l1 ++ x :: l2 → is_script x →
       Forall (λ y, ¬ is_script y) l1 → script = Some x) ∧
    (∀ l1 x l2, cs = l1 ++ x :: l2 → is_template x →
       Forall (λ y, ¬ is_template y) l1 → template = Some x) ∧
    (Forall (λ y, ¬ is_script y) cs → script = None) ∧
    (Forall (λ y, ¬ is_template y) cs → template = None) ∧
    script_result deps code o =
      match script with
      | Some s => parseScriptElement deps s calc o
      | None => parseScript deps [] o
      end ∧
    (∀ r, script_result deps code o = inr r →
          ∃ res, parseVue deps code o = inr res ∧
                 templateBody (ast res) =
                 (λ t, mkTemplateBody t (concrete_info (html_root html))) <$>
                 template) ∧
    (∀ e, parseVue deps code o = inl e → script_result deps code o = inl e).
Proof.
  intros html cs calc is_script is_template.
  exists (find isScriptElement cs), (find isTemplateElement cs).
  split; [apply find_first_such, isScriptElement_spec|].
  split; [apply find_first_such, isTemplateElement_spec|].
  split.
  { intros s [? ?]%find_top_level. split; [done|].
    by apply isScriptElement_name. }
  split.
  { intros t [? ?]%find_top_level. split; [done|].
    by apply isTemplateElement_name. }
  split.
  { intros l1 x l2 -> Hx Hl1.
    apply (find_determined isScriptElement is_script);
      [apply isScriptElement_spec|done..]. }
  split.
  { intros l1 x l2 -> Hx Hl1.
    apply (find_determined isTemplateElement is_template);
      [apply isTemplateElement_spec|done..]. }
  split; [apply (find_none isScriptElement), isScriptElement_spec|].
  split; [apply (find_none isTemplateElement), isTemplateElement_spec|].
  split; [reflexivity|]. split.
  - intros r Hr. eexists. split; [by apply parseVue_assembles|done].
  - intros e. apply parseVue_fails.
Qed.

Lemma first_top_level_blocks_witness :
  ∃ script template : option VNode,
    first_such (element_named (js "script"))
      (root_children Sample.root_two_scripts) script ∧
    script = Some Sample.script_a ∧
    template = None ∧
    script_result Sample.deps Sample.doc_two_scripts default_options =
      driveScript Sample.skipped Sample.script_parser Sample.script_a
        (mkLocationCalculator [] []) default_options.
Proof.
  destruct (first_top_level_blocks Sample.deps Sample.doc_two_scripts
              default_options)
    as (script & template & Hs & _ & _ & _ & Hfirst & _ & _ & Hnone & Hrun & _).
  assert (Hscript : script = Some Sample.script_a).
  { apply (Hfirst [] Sample.script_a [Sample.script_b]).
    - reflexivity.
    - by eexists _, _, _, _.
    - constructor. }
  assert (Htemplate : template = None).
  { apply Hnone. repeat constructor; by intros (? & ? & ? & ? & ?). }
  exists script, template. split; [exact Hs|]. split; [exact Hscript|].
  split; [exact Htemplate|]. rewrite Hrun, Hscript. reflexivity.
Defined.

(** C6: on the markup path the result has a template body exactly when a
    top-level template element exists; the template body is that element
    together with the markup parser's token, comment and error lists of
    the whole document, as they are; without a template element the
    template body is absent. *)
Theorem templateBody_iff_template {Service} (deps : Collaborators Service)
    (h : heap) (code : js_string) (options : jsval)
    (r : ESLintExtendedProgram Service) :
  let o := effective_options h options in
  let root := html_root (parseHTML deps code o) in
  isVueFile code o = inr true →
  script_result deps code o = inr r →
  ∃ res,
    (parseForESLint deps h code options).2 = inr res ∧
    (is_Some (templateBody (ast res)) ↔
     ∃ t, t ∈ root_children root ∧ isTemplateElement t = true) ∧
    (∀ tb, templateBody (ast res) = Some tb →
       find isTemplateElement (root_children root) = Some (tb_node tb) ∧
       tokens (tb_info tb) = root_tokens root ∧
       comments (tb_info tb) = root_comments root ∧
       errors (tb_info tb) = root_errors root) ∧
    (find isTemplateElement (root_children root) = None →
     templateBody (ast res) = None).
Proof.
  intros o root Hvue Hr.
  eexists. split.
  { rewrite parseForESLint_vue by done. by apply parseVue_assembles. }
  simpl. fold o root.
  pose proof (find_first_match isTemplateElement (root_children root)) as Hm.
  destruct (find isTemplateElement (root_children root)) as [t|] eqn:Hf;
    simpl in *.
  - split; [|split; [|done]].
    + split; [|by eauto]. intros _. exists t. by apply find_top_level.
    + by intros tb [= <-].
  - split; [|split; [done|done]].
    split; [by intros [? ?]|].
    intros (t & Ht & Hp). rewrite Forall_forall in Hm.
    specialize (Hm t Ht). congruence.
Qed.

Lemma templateBody_iff_template_witness :
  ∃ res,
    (parseForESLint Sample.deps ∅ Sample.doc_both JUndefined).2 = inr res ∧
    (tokens <$> (tb_info <$> templateBody (ast res))) =
      Some (root_tokens Sample.root_both).
Proof.
  destruct (templateBody_iff_template Sample.deps ∅ Sample.doc_both JUndefined
              {| ast := mkProgram (35, 44)
                          [ESNodeOf (js "ExpressionStatement") (35, 44) []]
                          [script_tag_token "<script>" (27, 35);
                           mkToken (js "Identifier") (js "var x = 1") (35, 44);
                           script_tag_token "</script>" (44, 53)]
                          [] None;
                 services := None |})
    as (res & Hres & _ & Hinfo & _).
  - vm_compute. reflexivity.
  - vm_compute. reflexivity.
  - exists res. split; [exact Hres|].
    assert (Hsome : is_Some (templateBody (ast res))).
    { rewrite parseForESLint_result in Hres. vm_compute in Hres.
      injection Hres as <-. vm_compute. eauto. }
    destruct Hsome as [tb Htb]. rewrite Htb. simpl.
    destruct (Hinfo tb Htb) as (_ & -> & _). vm_compute. reflexivity.
Defined.

(** C7: on the markup path the returned services are the script parser's
    services (none when it attached none) overlaid with the coordinator's
    own; a name of the coordinator's services always maps to the
    coordinator's entry, every other name to the script parser's. *)
Theorem services_overlay {Service} (deps : Collaborators Service)
    (h : heap) (code : js_string) (options : jsval)
    (r : ESLintExtendedProgram Service) :
  let o := effective_options h options in
  isVueFile code o = inr true →
  script_result deps code o = inr r →
  ∃ res svc,
    (parseForESLint deps h code options).2 = inr res ∧
    services res = Some svc ∧
    svc = assign_props (default ∅ (services r)) (parser_services deps) ∧
    (∀ k v, parser_services deps !! k = Some v → svc !! k = Some v) ∧
    (∀ k, parser_services deps !! k = None →
          svc !! k = default ∅ (services r) !! k).
Proof.
  intros o Hvue Hr.
  eexists _, _. split.
  { rewrite parseForESLint_vue by done. by apply parseVue_assembles. }
  simpl. split; [reflexivity|]. split; [reflexivity|]. split.
  - intros k v Hk. by apply lookup_union_Some_l.
  - intros k Hk. by apply lookup_union_r.
Qed.

Lemma services_overlay_witness :
  ∃ res svc,
    (parseForESLint Sample.deps_with_services ∅ Sample.doc_both
       JUndefined).2 = inr res ∧
    services res = Some svc ∧
    svc !! "registerTemplateBodyVisitor" = Some "template-body-visitor" ∧
    svc !! "getTypeChecker" = Some "type-checker".
Proof.
  destruct (services_overlay Sample.deps_with_services ∅ Sample.doc_both
              JUndefined
              {| ast := mkProgram (35, 44)
                          [ESNodeOf (js "ExpressionStatement") (35, 44) []]
                          [script_tag_token "<script>" (27, 35);
                           mkToken (js "Identifier") (js "var x = 1") (35, 44);
                           script_tag_token "</script>" (44, 53)]
                          [] None;
                 services :=
                   Some {[ "registerTemplateBodyVisitor" := "theirs";
                           "getTypeChecker" := "type-checker" ]} |})
    as (res & svc & Hres & Hsvc & _ & Hours & Htheirs).
  - vm_compute. reflexivity.
  - vm_compute. reflexivity.
  - exists res, svc. split; [exact Hres|]. split; [exact Hsvc|]. split.
    + apply Hours. vm_compute. reflexivity.
    + rewrite Htheirs; vm_compute; reflexivity.
Defined.

(** C9: when the document has a template block, the template body of the
    result is the very element the markup parser produced: its range, its
    name and its children are those of that element, and assembly adds
    the tokens, comments and errors and nothing else. *)
Theorem template_node_untouched {Service} (deps : Collaborators Service)
    (h : heap) (code : js_string) (options : jsval)
    (r : ESLintExtendedProgram Service) (t : VNode) :
  let o := effective_options h options in
  let root := html_root (parseHTML deps code o) in
  isVueFile code o = inr true →
  script_result deps code o = inr r →
  find isTemplateElement (root_children root) = Some t →
  ∃ res tb,
    (parseForESLint deps h code options).2 = inr res ∧
    templateBody (ast res) = Some tb ∧
    tb_node tb = t ∧
    node_range (tb_node tb) = node_range t ∧
    node_name (tb_node tb) = node_name t ∧
    node_children (tb_node tb) = node_children t ∧
    tb_info tb = concrete_info root.
Proof.
  intros o root Hvue Hr Ht.
  eexists _, _. split.
  { rewrite parseForESLint_vue by done. by apply parseVue_assembles. }
  simpl. fold o root. rewrite Ht. simpl. by repeat split.
Qed.

Lemma template_node_untouched_witness :
  ∃ res tb,
    (parseForESLint Sample.deps ∅ Sample.doc_both JUndefined).2 = inr res ∧
    templateBody (ast res) = Some tb ∧
    node_range (tb_node tb) = (0, 27) ∧
    node_name (tb_node tb) = Some (js "template").
Proof.
  destruct (template_node_untouched Sample.deps ∅ Sample.doc_both JUndefined
              {| ast := mkProgram (35, 44)
                          [ESNodeOf (js "ExpressionStatement") (35, 44) []]
                          [script_tag_token "<script>" (27, 35);
                           mkToken (js "Identifier") (js "var x = 1") (35, 44);
                           script_tag_token "</script>" (44, 53)]
                          [] None;
                 services := None |}
              Sample.template_both)
    as (res & tb & Hres & Htb & _ & Hrange & Hname & _).
  - vm_compute. reflexivity.
  - vm_compute. reflexivity.
  - vm_compute. reflexivity.
  - exists res, tb. split; [exact Hres|]. split; [exact Htb|].
    rewrite Hrange, Hname. split; reflexivity.
Defined.

(** ** The plain-script path *)

(** C2: for a document classified as plain script, parseForESLint returns
    what the script parser returns for the whole text under the merged
    options, be it a program or a failure; the script parser producing
    standard programs, the result has no template body. *)
Theorem plain_script_is_direct_parse {Service} (deps : Collaborators Service)
    (h : heap) (code : js_string) (options : jsval) :
  let o := effective_options h options in
  standard_script_parser deps →
  isVueFile code o = inr false →
  (parseForESLint deps h code options).2 = parseScript deps code o ∧
  (∀ res, (parseForESLint deps h code options).2 = inr res →
          templateBody (ast res) = None).
Proof.
  intros o Hstd Hplain.
  assert (Heq : (parseForESLint deps h code options).2 =
                parseScript deps code o).
  { rewrite parseForESLint_result. fold o. unfold parseWith.
    by rewrite Hplain. }
  split; [done|]. intros res Hres. rewrite Heq in Hres. by eapply Hstd.
Qed.

Lemma plain_script_is_direct_parse_witness :
  (parseForESLint Sample.deps
     (Sample.caller_heap {[ "filePath" := JStr (js "a.js") ]})
     Sample.doc_plain (JObj Sample.caller_loc)).2 =
  Sample.script_parser Sample.doc_plain
    (effective_options
       (Sample.caller_heap {[ "filePath" := JStr (js "a.js") ]})
       (JObj Sample.caller_loc)).
Proof.
  apply (plain_script_is_direct_parse Sample.deps
           (Sample.caller_heap {[ "filePath" := JStr (js "a.js") ]})
           Sample.doc_plain (JObj Sample.caller_loc)).
  - intros code o r Hr. injection Hr as <-. reflexivity.
  - vm_compute. reflexivity.
Defined.

(** C8: on the markup path, when no top-level script element exists, the
    coordinator hands the empty text to the script parser under the same
    options; the script parser accepting the empty text, the call returns
    a result, whose program has no body statements, no tokens and no
    comments. *)
Theorem no_script_block_parses_empty {Service} (deps : Collaborators Service)
    (h : heap) (code : js_string) (options : jsval) :
  let o := effective_options h options in
  let root := html_root (parseHTML deps code o) in
  parses_empty_text deps →
  isVueFile code o = inr true →
  find isScriptElement (root_children root) = None →
  script_result deps code o = parseScript deps [] o ∧
  ∃ r res,
    parseScript deps [] o = inr r ∧
    (parseForESLint deps h code options).2 = inr res ∧
    prog_range (ast res) = prog_range (ast r) ∧
    prog_body (ast res) = [] ∧
    prog_tokens (ast res) = [] ∧
    prog_comments (ast res) = [].
Proof.
  intros o root Hempty Hvue Hnone.
  assert (Hsr : script_result deps code o = parseScript deps [] o).
  { unfold script_result. cbv zeta. fold o root. by rewrite Hnone. }
  split; [done|].
  destruct (Hempty o) as (r & Hr & Hb & Ht & Hc).
  exists r. eexists. split; [done|]. split.
  { rewrite parseForESLint_vue by done. apply parseVue_assembles.
    fold o. by rewrite Hsr. }
  simpl. by repeat split.
Qed.

Lemma no_script_block_parses_empty_witness :
  ∃ res,
    (parseForESLint Sample.deps ∅ Sample.doc_template_only JUndefined).2 =
      inr res ∧
    prog_body (ast res) = [].
Proof.
  destruct (no_script_block_parses_empty Sample.deps ∅
              Sample.doc_template_only JUndefined)
    as (_ & r & res & _ & Hres & _ & Hbody & _).
  - intros o. eexists. repeat split; reflexivity.
  - vm_compute. reflexivity.
  - vm_compute. reflexivity.
  - exists res. split; [exact Hres|exact Hbody].
Defined.

(** ** The script driver *)

Lemma gap_sum_bounds (gaps : list Gap) (o : Z) :
  Forall (λ g, 0 ≤ gap_length g) gaps →
  0 ≤ foldr (λ g acc, if gap_offset g <=? o
                      then gap_length g + acc else acc) 0 gaps
    ≤ total_gap_length gaps.
Proof.
  induction 1 as [|g gaps Hg _ IH]; simpl; [lia|].
  destruct (gap_offset g <=? o); lia.
Qed.

(** A position of the extracted text lands inside the script content. *)
Lemma toDocumentOffset_in_content (ex : Extraction) (q : Z) :
  Forall (λ g, 0 ≤ gap_length g) (ex_skipped ex) →
  0 ≤ q ≤ Z.of_nat (length (ex_text ex)) →
  ex_start ex ≤ toDocumentOffset (extraction_gaps ex) q ≤ content_end ex.
Proof.
  intros Hlen Hq. unfold toDocumentOffset, extraction_gaps, content_end.
  simpl. destruct (Z.leb_spec 0 q) as [_|?]; [|lia].
  pose proof (gap_sum_bounds (ex_skipped ex) q Hlen). lia.
Qed.

Lemma node_positions_fix (f : Z → Z) (n : ESNode) :
  node_positions (fix_node f n) = map f (node_positions n).
Proof.
  induction n as [t r cs IH] using ESNode_forall_ind. simpl.
  do 2 f_equal. induction IH as [|c cs Hc _ IHcs]; simpl; [done|].
  by rewrite map_app, Hc, IHcs.
Qed.

Lemma flat_map_token_positions_fix (f : Z → Z) (ts : list Token) :
  flat_map token_positions (map (fix_token f) ts) =
  map f (flat_map token_positions ts).
Proof. induction ts as [|t ts IH]; simpl; [done|]. by rewrite IH. Qed.

Lemma flat_map_node_positions_fix (f : Z → Z) (ns : list ESNode) :
  flat_map node_positions (map (fix_node f) ns) =
  map f (flat_map node_positions ns).
Proof.
  induction ns as [|n ns IH]; simpl; [done|].
  by rewrite map_app, node_positions_fix, IH.
Qed.

(** The remapping pass reaches every recorded position. *)
Lemma program_positions_fix (f : Z → Z) (p : ESLintProgram) :
  program_positions (fixLocations f p) = map f (program_positions p).
Proof.
  unfold program_positions. simpl.
  rewrite !map_app, flat_map_node_positions_fix.
  by rewrite !flat_map_token_positions_fix.
Qed.

Lemma program_positions_set_templateBody (p : ESLintProgram)
    (t : option TemplateBody) :
  program_positions (set_templateBody p t) = program_positions p.
Proof. reflexivity. Qed.

Lemma total_gap_length_nonneg (gaps : list Gap) :
  Forall (λ g, 0 ≤ gap_length g) gaps → 0 ≤ total_gap_length gaps.
Proof. intros Hg. pose proof (gap_sum_bounds gaps 0 Hg). lia. Qed.

Lemma Forall_positions_with_tags (P : Z → Prop) (s : VNode)
    (p : ESLintProgram) :
  Forall P (program_positions p) →
  Forall P (flat_map token_positions (start_tag_tokens s)) →
  Forall P (flat_map token_positions (end_tag_tokens s)) →
  Forall P (program_positions (with_tag_tokens s p)).
Proof.
  unfold program_positions. simpl.
  rewrite !flat_map_app, !Forall_cons, !Forall_app.
  intros (? & ? & ? & ? & ?) ? ?. by repeat split.
Qed.

(** With the sample collaborators the unclosed document [<script>] has
    its (empty) script content at offset 8, the end of the document.  The
    program node sits there, a position that is not below the length of
    the document, and the token list holds the token of the start tag,
    whose range from 0 to 8 lies in the markup before the content. *)
Lemma position_at_document_end :
  ∃ res s,
    (parseForESLint Sample.deps ∅ Sample.doc_unclosed JUndefined).2 =
      inr res ∧
    find isScriptElement
      (root_children
         (html_root
            (Sample.markup_parser Sample.doc_unclosed
               (effective_options ∅ JUndefined)))) = Some s ∧
    script_text s = inr ([], 8) ∧
    program_positions (ast res) = [8; 8; 0; 8] ∧
    ¬ Forall (λ q, 0 ≤ q < Z.of_nat (length Sample.doc_unclosed))
        (program_positions (ast res)) ∧
    ¬ Forall (λ q, 8 ≤ q) (program_positions (ast res)).
Proof.
  eexists _, _. split; [vm_compute; reflexivity|].
  split; [vm_compute; reflexivity|]. split; [reflexivity|].
  split; [vm_compute; reflexivity|]. split.
  - intros Hall. apply Forall_cons in Hall as [Hq _]. vm_compute in Hq.
    destruct Hq as [_ Hq]. discriminate Hq.
  - intros Hall. do 2 apply Forall_cons in Hall as [_ Hall].
    apply Forall_cons in Hall as [Hq _]. vm_compute in Hq. by apply Hq.
Qed.

(** C3, amended: for a document with a script block, every position the
    script parser reported for a node, a token or a comment is remapped
    to the document offset of that position of the script text: it lies
    between the start and the end of the script content, both included,
    so never inside the markup before or after the content.  When the
    token list is kept, the result's token list has in addition a token
    for the start tag of the script element in front and a token for its
    end tag, if it has one, behind; their ranges are the ranges of the
    tags, in the markup around the content.  Every position of the
    result's script tree lies within the closed range from 0 to the
    length of the document. *)
Theorem script_positions_in_content {Service} (deps : Collaborators Service)
    (skipped : VNode → LocationCalculator → list Gap)
    (h : heap) (code : js_string) (options : jsval) (s : VNode)
    (text : js_string) (start : Z)
    (r : ESLintExtendedProgram Service) :
  let o := effective_options h options in
  let html := parseHTML deps code o in
  let calc :=
    mkLocationCalculator (html_gaps html) (html_lineTerminators html) in
  let ex := mkExtraction text start (skipped s calc) in
  let remapped :=
    fixLocations (toDocumentOffset (extraction_gaps ex)) (ast r) in
  let len := Z.of_nat (length code) in
  (∀ n c o', parseScriptElement deps n c o' =
             driveScript skipped (parseScript deps) n c o') →
  positions_local deps →
  isVueFile code o = inr true →
  find isScriptElement (root_children (html_root html)) = Some s →
  script_text s = inr (text, start) →
  extraction_fits ex len →
  tags_enclose s ex len →
  parseScript deps text o = inr r →
  ∃ res,
    (parseForESLint deps h code options).2 = inr res ∧
    program_positions remapped =
      map (toDocumentOffset (extraction_gaps ex)) (program_positions (ast r)) ∧
    Forall (λ q, start ≤ q ≤ content_end ex) (program_positions remapped) ∧
    prog_range (ast res) = prog_range remapped ∧
    prog_body (ast res) = prog_body remapped ∧
    prog_comments (ast res) = prog_comments remapped ∧
    prog_tokens (ast res) =
      (if tokens_kept o
       then start_tag_tokens s ++ prog_tokens remapped ++ end_tag_tokens s
       else prog_tokens remapped) ∧
    Forall (λ t, node_startTag s = Some (tok_range t) ∧
                 (tok_range t).2 ≤ start) (start_tag_tokens s) ∧
    Forall (λ t, node_endTag s = Some (tok_range t) ∧
                 content_end ex ≤ (tok_range t).1) (end_tag_tokens s) ∧
    Forall (λ q, 0 ≤ q ≤ len) (program_positions (ast res)).
Proof.
  intros o html calc ex remapped len Hdrv Hlocal Hvue Hs Htext
    (Hstart & Hgaps & Hend) [Hst Het] Hr.
  assert (Hsr : script_result deps code o =
                inr {| ast := if tokens_kept o
                              then with_tag_tokens s remapped else remapped;
                       services := services r |}).
  { unfold script_result. cbv zeta. fold o html. rewrite Hs, Hdrv.
    unfold driveScript. rewrite Htext. fold calc ex.
    unfold parse_and_remap. cbv zeta. by rewrite Hr. }
  assert (Hin : Forall (λ q, start ≤ q ≤ content_end ex)
                  (program_positions remapped)).
  { unfold remapped. rewrite program_positions_fix.
    apply Forall_map. eapply Forall_impl; [by eapply Hlocal|].
    intros q Hq. by apply (toDocumentOffset_in_content ex). }
  pose proof (total_gap_length_nonneg _ Hgaps) as Htotal.
  assert (Hce : start ≤ content_end ex ≤ len).
  { unfold content_end. simpl in *. lia. }
  assert (Hstags : Forall (λ t, node_startTag s = Some (tok_range t) ∧
                                (tok_range t).2 ≤ start)
                     (start_tag_tokens s)).
  { unfold start_tag_tokens. destruct (node_startTag s) as [st|]; [|done].
    repeat constructor. simpl in *. lia. }
  assert (Hetags : Forall (λ t, node_endTag s = Some (tok_range t) ∧
                                content_end ex ≤ (tok_range t).1)
                     (end_tag_tokens s)).
  { unfold end_tag_tokens. destruct (node_endTag s) as [et|]; [|done].
    repeat constructor. simpl in *. lia. }
  assert (Hall : Forall (λ q, 0 ≤ q ≤ len) (program_positions remapped)).
  { eapply Forall_impl; [exact Hin|]. intros q Hq. simpl in *. lia. }
  assert (Hall' : Forall (λ q, 0 ≤ q ≤ len)
                    (program_positions (with_tag_tokens s remapped))).
  { apply Forall_positions_with_tags; [done| |].
    - unfold start_tag_tokens. destruct (node_startTag s) as [st|]; [|done].
      simpl in *. repeat constructor; lia.
    - unfold end_tag_tokens. destruct (node_endTag s) as [et|]; [|done].
      simpl in *. repeat constructor; lia. }
  eexists. split.
  { rewrite parseForESLint_vue by done. by apply parseVue_assembles. }
  split; [apply program_positions_fix|]. split; [done|].
  cbn [ast]. rewrite program_positions_set_templateBody.
  destruct (tokens_kept o); by repeat split.
Qed.

Lemma script_positions_in_content_witness :
  ∃ res,
    (parseForESLint Sample.deps ∅ Sample.doc_both JUndefined).2 = inr res ∧
    program_positions (ast res) = [35; 44; 35; 44; 27; 35; 35; 44; 44; 53] ∧
    Forall (λ q, 0 ≤ q ≤ 53) (program_positions (ast res)).
Proof.
  destruct (script_positions_in_content Sample.deps Sample.skipped ∅
              Sample.doc_both JUndefined Sample.script_both
              (js "var x = 1") 35
              {| ast := mkProgram (0, 9)
                          [ESNodeOf (js "ExpressionStatement") (0, 9) []]
                          [mkToken (js "Identifier") (js "var x = 1") (0, 9)]
                          [] None;
                 services := None |})
    as (res & Hres & _ & _ & _ & _ & _ & _ & _ & _ & Hall).
  - reflexivity.
  - intros text o r Hr. injection Hr as <-.
    unfold program_positions. simpl.
    destruct text; [repeat constructor; simpl; lia|].
    destruct (tokens_kept o); repeat constructor; simpl; lia.
  - vm_compute. reflexivity.
  - vm_compute. reflexivity.
  - reflexivity.
  - vm_compute. repeat split; try discriminate. constructor.
  - vm_compute. repeat split; discriminate.
  - vm_compute. reflexivity.
  - exists res. split; [exact Hres|]. split; [|exact Hall].
    rewrite parseForESLint_result in Hres. vm_compute in Hres.
    injection Hres as <-. vm_compute. reflexivity.
Defined.

(** ** Worked examples *)

Example extname_component : path_extname (js "src/App.vue") = js ".vue".
Proof. vm_compute. reflexivity. Qed.

Example extname_last_dot_wins : path_extname (js "index.coffee.md") = js ".md".
Proof. vm_compute. reflexivity. Qed.

Example extname_dotfile : path_extname (js ".vue") = [].
Proof. vm_compute. reflexivity. Qed.

Example extname_trailing_slashes : path_extname (js "a/b.vue//") = js ".vue".
Proof. vm_compute. reflexivity. Qed.

Example extname_of_directory_part : path_extname (js "a.vue/b") = [].
Proof. vm_compute. reflexivity. Qed.

Example extname_dot_dot : path_extname (js "a/..") = [].
Proof. vm_compute. reflexivity. Qed.

Example sniff_after_byte_order_mark :
  STARTS_WITH_LT_test (65279%N :: js "  <template>") = true.
Proof. vm_compute. reflexivity. Qed.

Example sniff_plain_script : STARTS_WITH_LT_test Sample.doc_plain = false.
Proof. vm_compute. reflexivity. Qed.

Example extension_decides_alone :
  isVueFile Sample.doc_plain {[ "filePath" := JStr (js "a.vue") ]} = inr true.
Proof. vm_compute. reflexivity. Qed.

Example filePath_of_another_type :
  isVueFile Sample.doc_plain {[ "filePath" := JNum 42 ]} = inl TypeError.
Proof. vm_compute. reflexivity. Qed.

Example first_of_two_scripts :
  ∃ res,
    (parseForESLint Sample.deps ∅ Sample.doc_two_scripts JUndefined).2 =
      inr res ∧
    prog_tokens (ast res) =
      [script_tag_token "<script>" (0, 8);
       mkToken (js "Identifier") (js "a") (8, 9);
       script_tag_token "</script>" (9, 18)].
Proof. eexists. split; vm_compute; reflexivity. Qed.

Example nested_script_is_no_candidate :
  find isScriptElement
    [VElement (js "template") (0, 40) (0, 10) (Some (29, 40))
       [VElement (js "script") (10, 29) (10, 18) (Some (20, 29)) []]] = None.
Proof. vm_compute. reflexivity. Qed.

(** * Further properties of index.ts *)

(** ** The content sniff *)

Lemma sniff_skips_space (c : code_unit) (code : js_string) :
  is_js_space c = true →
  STARTS_WITH_LT_test (c :: code) = STARTS_WITH_LT_test code.
Proof.
  intros Hc. simpl.
  destruct (N.eqb_spec c CHAR_LT) as [->|_]; [discriminate Hc|].
  by rewrite Hc.
Qed.

(** X1: white space in front of a text does not change the outcome of
    the [/^\s*</] test. *)
Theorem sniff_ignores_leading_space (ws code : js_string) :
  Forall (λ c, is_js_space c = true) ws →
  STARTS_WITH_LT_test (ws ++ code) = STARTS_WITH_LT_test code.
Proof.
  induction 1 as [|c ws Hc _ IH]; [done|].
  rewrite <- app_comm_cons. by rewrite sniff_skips_space.
Qed.

Lemma sniff_ignores_leading_space_witness :
  STARTS_WITH_LT_test (js "  " ++ Sample.doc_both) =
  STARTS_WITH_LT_test Sample.doc_both.
Proof.
  apply (sniff_ignores_leading_space (js "  ") Sample.doc_both).
  vm_compute. repeat constructor.
Defined.

Lemma sniff_blank (code : js_string) :
  Forall (λ c, is_js_space c = true) code →
  STARTS_WITH_LT_test code = false.
Proof.
  induction 1 as [|c code Hc _ IH]; [done|].
  by rewrite sniff_skips_space.
Qed.

(** X2: a text that is empty or all white space, coming without a file
    path, is classified as plain script: parseForESLint hands it to the
    script parser as it is, under the merged options. *)
Theorem blank_text_is_plain_script {Service} (deps : Collaborators Service)
    (h : heap) (code : js_string) (options : jsval) :
  options_wf h options →
  truthy (get (caller_options h options) "filePath") = false →
  Forall (λ c, is_js_space c = true) code →
  isVueFile code (effective_options h options) = inr false ∧
  (parseForESLint deps h code options).2 =
  parseScript deps code (effective_options h options).
Proof.
  intros Hwf Hfp Hws.
  assert (Hc : isVueFile code (effective_options h options) = inr false).
  { rewrite isVueFile_falsy, sniff_blank; [done..|].
    by rewrite effective_options_spec, get_merged_filePath. }
  split; [done|].
  rewrite parseForESLint_result. unfold parseWith. by rewrite Hc.
Qed.

Lemma blank_text_is_plain_script_witness :
  (parseForESLint Sample.deps ∅ (js "  ") JUndefined).2 =
  Sample.script_parser (js "  ") (effective_options ∅ JUndefined).
Proof.
  apply (blank_text_is_plain_script Sample.deps ∅ (js "  ") JUndefined).
  - exact I.
  - reflexivity.
  - vm_compute. repeat constructor.
Defined.

(** ** The classifier and the options *)

(** X3: the classification under the merged options is the classification
    under the caller's own options: the defaults play no part in it. *)
Theorem defaults_do_not_classify (h : heap) (code : js_string)
    (options : jsval) :
  options_wf h options →
  isVueFile code (effective_options h options) =
  isVueFile code (caller_options h options).
Proof.
  intros Hwf. unfold isVueFile.
  by rewrite effective_options_spec, get_merged_filePath.
Qed.

Lemma defaults_do_not_classify_witness :
  isVueFile Sample.doc_plain
    (effective_options
       (Sample.caller_heap {[ "filePath" := JStr (js "a.vue") ]})
       (JObj Sample.caller_loc)) =
  isVueFile Sample.doc_plain {[ "filePath" := JStr (js "a.vue") ]}.
Proof.
  rewrite (defaults_do_not_classify
             (Sample.caller_heap {[ "filePath" := JStr (js "a.vue") ]})
             Sample.doc_plain (JObj Sample.caller_loc)).
  - vm_compute. reflexivity.
  - vm_compute. eauto.
Defined.

(** X4: the classifier fails exactly when filePath holds a truthy value
    that is not a string, and the failure is the TypeError of
    path.extname; a falsy filePath of any type is replaced by the
    placeholder and never fails. *)
Theorem classifier_fails_on_truthy_non_string (code : js_string) (o : obj)
    (e : JsError) :
  isVueFile code o = inl e ↔
  e = TypeError ∧ truthy (get o "filePath") = true ∧
  ∀ p, get o "filePath" ≠ JStr p.
Proof.
  unfold isVueFile, js_or.
  destruct (get o "filePath") as [| |b|n|p|l] eqn:Hv; cbn [truthy extname_of].
  - split; [done|]. by intros (_ & ? & _).
  - split; [done|]. by intros (_ & ? & _).
  - destruct b; cbn [extname_of].
    + split; [by intros [= <-]|by intros (-> & _)].
    + split; [done|]. by intros (_ & ? & _).
  - destruct (n =? 0); cbn [negb extname_of].
    + split; [done|]. by intros (_ & ? & _).
    + split; [by intros [= <-]|by intros (-> & _)].
  - destruct (negb (bool_decide (p = []))); cbn [extname_of].
    + split; [done|]. intros (_ & _ & Hp). by destruct (Hp p).
    + split; [done|]. by intros (_ & ? & _).
  - split; [by intros [= <-]|by intros (-> & _)].
Qed.

(** X5: parseForESLint fails exactly when the classifier fails, or the
    document is plain script and the script parser fails on the whole
    text, or the document is markup and parsing its script block (the
    empty text when there is none) fails; the error is passed on as it
    is. *)
Theorem parseForESLint_failures {Service} (deps : Collaborators Service)
    (h : heap) (code : js_string) (options : jsval) (e : JsError) :
  let o := effective_options h options in
  (parseForESLint deps h code options).2 = inl e ↔
  isVueFile code o = inl e ∨
  (isVueFile code o = inr false ∧ parseScript deps code o = inl e) ∨
  (isVueFile code o = inr true ∧ script_result deps code o = inl e).
Proof.
  intros o. rewrite parseForESLint_result. fold o. unfold parseWith.
  destruct (isVueFile code o) as [e'|[|]].
  - split; [intros [= <-]; by left|]. by intros [[= <-]|[[? _]|[? _]]].
  - rewrite parseVue_fails. split; [intros ?; right; by right|].
    by intros [?|[[? _]|[_ ?]]].
  - split; [intros ?; right; by left|]. by intros [?|[[_ ?]|[? _]]].
Qed.

(** ** The block locator *)

Lemma script_is_not_template (n : VNode) :
  isScriptElement n = true → isTemplateElement n = false.
Proof.
  destruct n as [name ? ? ? ?| |]; simpl; [|done..].
  rewrite str_eqb_true. intros ->. vm_compute. reflexivity.
Qed.

(** X6: the script block and the template block of a document are never
    the same node: no node passes both tests, so the template body of a
    result is never the script element. *)
Theorem script_and_template_differ (cs : list VNode) (s t : VNode) :
  find isScriptElement cs = Some s →
  find isTemplateElement cs = Some t →
  s ≠ t ∧ isTemplateElement s = false ∧ isScriptElement t = false.
Proof.
  intros [_ Hs]%find_top_level [_ Ht]%find_top_level.
  pose proof (script_is_not_template s Hs) as Hst.
  split; [intros ->; congruence|]. split; [done|].
  destruct (isScriptElement t) eqn:Hts; [|done].
  apply script_is_not_template in Hts. congruence.
Qed.

Lemma script_and_template_differ_witness :
  Sample.script_both ≠ Sample.template_both.
Proof.
  apply (script_and_template_differ
           (root_children Sample.root_both)
           Sample.script_both Sample.template_both);
    vm_compute; reflexivity.
Defined.

Lemma find_filter_implied {A} (p q : A → bool) (l : list A) :
  (∀ x, p x = true → q x = true) →
  find p (List.filter q l) = find p l.
Proof.
  intros Hpq. induction l as [|x l IH]; simpl; [done|].
  destruct (p x) eqn:Hp.
  - rewrite (Hpq x Hp). simpl. by rewrite Hp.
  - destruct (q x); simpl; [by rewrite Hp|done].
Qed.

(** X7: the two searches are independent: the script block found does
    not change when top-level nodes that are not script elements (the
    template blocks among them) are taken away, and the template block
    found does not change when nodes that are not template elements are
    taken away. *)
Theorem block_searches_independent (keep : VNode → bool) (cs : list VNode) :
  ((∀ n, isScriptElement n = true → keep n = true) →
   find isScriptElement (List.filter keep cs) = find isScriptElement cs) ∧
  ((∀ n, isTemplateElement n = true → keep n = true) →
   find isTemplateElement (List.filter keep cs) = find isTemplateElement cs) ∧
  find isScriptElement
    (List.filter (λ n, negb (isTemplateElement n)) cs) =
    find isScriptElement cs ∧
  find isTemplateElement
    (List.filter (λ n, negb (isScriptElement n)) cs) =
    find isTemplateElement cs.
Proof.
  split; [apply find_filter_implied|]. split; [apply find_filter_implied|].
  split; apply find_filter_implied; intros n Hn.
  - by rewrite script_is_not_template.
  - destruct (isScriptElement n) eqn:Hs; [|done].
    apply script_is_not_template in Hs. congruence.
Qed.

(** ** The result assembler *)

(** X8: on the markup path the coordinator leaves the script tree as the
    script driver returned it: range, body, tokens, comments and every
    recorded position are the driver's; only the template body is set,
    and a template body the script parser had put there is replaced. *)
Theorem script_tree_is_kept {Service} (deps : Collaborators Service)
    (h : heap) (code : js_string) (options : jsval)
    (r : ESLintExtendedProgram Service) :
  let o := effective_options h options in
  let root := html_root (parseHTML deps code o) in
  isVueFile code o = inr true →
  script_result deps code o = inr r →
  ∃ res,
    (parseForESLint deps h code options).2 = inr res ∧
    prog_range (ast res) = prog_range (ast r) ∧
    prog_body (ast res) = prog_body (ast r) ∧
    prog_tokens (ast res) = prog_tokens (ast r) ∧
    prog_comments (ast res) = prog_comments (ast r) ∧
    program_positions (ast res) = program_positions (ast r) ∧
    templateBody (ast res) =
      (λ t, mkTemplateBody t (concrete_info root)) <$>
      find isTemplateElement (root_children root).
Proof.
  intros o root Hvue Hr.
  eexists. split.
  { rewrite parseForESLint_vue by done. by apply parseVue_assembles. }
  simpl. by repeat split.
Qed.

Lemma script_tree_is_kept_witness :
  ∃ res,
    (parseForESLint Sample.deps ∅ Sample.doc_both JUndefined).2 = inr res ∧
    prog_range (ast res) = (35, 44).
Proof.
  destruct (script_tree_is_kept Sample.deps ∅ Sample.doc_both JUndefined
              {| ast := mkProgram (35, 44)
                          [ESNodeOf (js "ExpressionStatement") (35, 44) []]
                          [script_tag_token "<script>" (27, 35);
                           mkToken (js "Identifier") (js "var x = 1") (35, 44);
                           script_tag_token "</script>" (44, 53)]
                          [] None;
                 services := None |})
    as (res & Hres & Hrange & _).
  - vm_compute. reflexivity.
  - vm_compute. reflexivity.
  - exists res. split; [exact Hres|exact Hrange].
Defined.

(** ** [parse] *)

(** X9: [parse] returns the program of the result: for a plain script
    the script parser's program for the whole text, for a markup document
    the script driver's program with the template body set; it fails with
    the error of the classifier or of the script parser, drops the
    services, and leaves every object of the caller's heap as it was. *)
Theorem parse_returns_the_program {Service} (deps : Collaborators Service)
    (h : heap) (code : js_string) (options : jsval) :
  options_wf h options →
  let o := effective_options h options in
  let root := html_root (parseHTML deps code o) in
  let template_body :=
    (λ t, mkTemplateBody t (concrete_info root)) <$>
    find isTemplateElement (root_children root) in
  (parse deps h code options).2 =
    match isVueFile code o with
    | inl e => inl e
    | inr false =>
        match parseScript deps code o with
        | inl e => inl e
        | inr r => inr (ast r)
        end
    | inr true =>
        match script_result deps code o with
        | inl e => inl e
        | inr r => inr (set_templateBody (ast r) template_body)
        end
    end ∧
  (parse deps h code options).1 = (parseForESLint deps h code options).1 ∧
  ∀ l0, l0 ∈ dom h → (parse deps h code options).1 !! l0 = h !! l0.
Proof.
  intros Hwf o root template_body.
  destruct (merge_options_spec h options Hwf)
    as (l & h' & Hm & Hl & _ & Hkeep).
  assert (Hrun : parseForESLint deps h code options =
                 (h', parseWith deps code o)).
  { unfold parseForESLint, o, effective_options. by rewrite Hm. }
  unfold parse. rewrite Hrun. simpl. split; [|split; [done|exact Hkeep]].
  unfold parseWith. destruct (isVueFile code o) as [e|[|]]; [done| |done].
  destruct (script_result deps code o) as [e|r] eqn:Hr.
  - apply parseVue_fails in Hr. by rewrite Hr.
  - by rewrite (parseVue_assembles deps code o r Hr).
Qed.

Lemma parse_returns_the_program_witness :
  (parse Sample.deps ∅ Sample.doc_plain JUndefined).2 =
  inr (mkProgram (0, 12)
         [ESNodeOf (js "ExpressionStatement") (0, 12) []]
         [mkToken (js "Identifier") Sample.doc_plain (0, 12)] [] None).
Proof.
  destruct (parse_returns_the_program Sample.deps ∅ Sample.doc_plain
              JUndefined) as (-> & _).
  - exact I.
  - vm_compute. reflexivity.
Defined.

(** ** The options merge, continued *)

(** X10: merging is idempotent: handing the merged options object back
    to the merge gives the same configuration. *)
Theorem remerge_is_idempotent (h h' : heap) (options : jsval) (l : loc) :
  options_wf h options →
  merge_options h options = (l, h') →
  options_wf h' (JObj l) ∧
  effective_options h' (JObj l) = effective_options h options.
Proof.
  intros Hwf Hm.
  destruct (merge_options_spec h options Hwf)
    as (l1 & h1 & Hm1 & _ & Hl1 & _).
  rewrite Hm in Hm1. injection Hm1 as <- <-.
  assert (Hwf' : options_wf h' (JObj l)) by (simpl; eauto).
  split; [done|].
  rewrite (effective_options_spec h' (JObj l) Hwf').
  rewrite (effective_options_spec h options Hwf).
  simpl. rewrite Hl1. simpl.
  by rewrite <- (assoc_L (∪)), (idemp_L (∪)).
Qed.

Lemma remerge_is_idempotent_witness :
  effective_options
    (merge_options (Sample.caller_heap {[ "ecmaVersion" := JNum 2017 ]})
       (JObj Sample.caller_loc)).2
    (JObj (merge_options (Sample.caller_heap {[ "ecmaVersion" := JNum 2017 ]})
             (JObj Sample.caller_loc)).1) =
  effective_options (Sample.caller_heap {[ "ecmaVersion" := JNum 2017 ]})
    (JObj Sample.caller_loc).
Proof.
  apply (remerge_is_idempotent
           (Sample.caller_heap {[ "ecmaVersion" := JNum 2017 ]})).
  - vm_compute. eauto.
  - by destruct (merge_options _ _).
Defined.

(** X11: every options value that is neither an object nor a non-empty
    string (undefined, null, a boolean, a number, the empty string)
    contributes no property: the merged configuration is exactly the
    defaults, in a new object, and no object of the caller changes. *)
Theorem primitive_options_give_defaults (h : heap) (options : jsval) :
  match options with
  | JObj _ | JStr (_ :: _) => False
  | _ => True
  end →
  ∃ l h', merge_options h options = (l, h') ∧
          (l ∉ dom h) ∧
          h' !! l = Some default_options ∧
          effective_options h options = default_options ∧
          ∀ l0, l0 ∈ dom h → h' !! l0 = h !! l0.
Proof.
  intros Hprim.
  assert (Hmain : ∃ l h', merge_options h options = (l, h') ∧
            (l ∉ dom h) ∧ h' !! l = Some default_options ∧
            ∀ l0, l0 ∈ dom h → h' !! l0 = h !! l0).
  { destruct (truthy options) eqn:Ht;
      [|by apply merge_options_falsy].
    unfold merge_options, alloc. rewrite Ht.
    remember (fresh (dom h)) as l eqn:El.
    assert (Hl : l ∉ dom h) by (subst l; apply is_fresh).
    eexists _, _. split; [reflexivity|]. split; [done|].
    unfold Object_assign. rewrite lookup_insert_eq.
    assert (Hown : own_props (<[l:=default_options]> h) options = ∅).
    { destruct options as [| |?|?|[|? ?]|?]; try done. }
    rewrite Hown, lookup_insert_eq, (left_id_L ∅ (∪)).
    split; [done|].
    intros l0 Hl0. assert (l ≠ l0) by congruence.
    by rewrite !lookup_insert_ne. }
  destruct Hmain as (l & h' & Hm & Hl & Hl' & Hkeep).
  exists l, h'. repeat split; try done.
  unfold effective_options. by rewrite Hm, Hl'.
Qed.

Lemma primitive_options_give_defaults_witness :
  effective_options ∅ (JBool false) = default_options ∧
  effective_options ∅ (JNum 7) = default_options.
Proof.
  split.
  - destruct (primitive_options_give_defaults ∅ (JBool false))
      as (_ & _ & _ & _ & _ & Heff & _); [exact I|exact Heff].
  - destruct (primitive_options_give_defaults ∅ (JNum 7))
      as (_ & _ & _ & _ & _ & Heff & _); [exact I|exact Heff].
Defined.

(** ** Which paths have the component-file extension *)

Lemma extname_step_inv (p : js_string) (i : nat) (st : ExtState) :
  (i < length p)%nat →
  extname_inv p (S i) st →
  match extname_step (nth i p 0%N) (Z.of_nat i) st with
  | inl st' =>
      extname_inv p (S i) st' ∧ nth i p 0%N = CHAR_FORWARD_SLASH ∧
      endPos st' ≠ -1
  | inr st' => extname_inv p i st'
  end.
Proof.
  intros Hi [Hnone Hsome]. unfold extname_step.
  destruct (N.eqb_spec (nth i p 0%N) CHAR_FORWARD_SLASH) as [Hc|Hc].
  - destruct (matchedSlash st) eqn:Hms; simpl.
    + destruct (decide (endPos st = -1)) as [He|He].
      * destruct (Hnone He) as (Hd & Hpre & _ & Hall).
        split; [|intros; done]. intros _. repeat split; try done.
        intros j Hj. destruct (decide (j = i)) as [->|]; [done|].
        apply Hall. lia.
      * destruct (Hsome He) as (? & _). congruence.
    + destruct (decide (endPos st = -1)) as [He|He].
      * destruct (Hnone He) as (_ & _ & ? & _). congruence.
      * split; [|done]. split; [done|]. intros _. by apply Hsome.
  - destruct (Z.eqb_spec (endPos st) (-1)) as [He|He].
    + destruct (Hnone He) as (Hd & Hpre & _ & Hall). simpl.
      destruct (N.eqb_spec (nth i p 0%N) CHAR_DOT) as [Hdot|Hdot]; simpl.
      * rewrite Hd. simpl. split; simpl; [lia|]. intros _.
        split; [done|]. split; [lia|]. split; [intros; apply Hall; lia|].
        split; [intros j Hj; by replace j with i by lia|].
        split; [lia|]. intros _. split; [lia|].
        split; [intros j Hj; by replace j with i by lia|].
        split; [intros; lia|]. done.
      * rewrite Hd. simpl. split; simpl; [lia|]. intros _.
        split; [done|]. split; [lia|]. split; [intros; apply Hall; lia|].
        split; [intros j Hj; by replace j with i by lia|].
        split; [|done]. intros _. split; [done|].
        intros j Hj; by replace j with i by lia.
    + destruct (Hsome He) as (Hms & Hrange & Hafter & Hin & Hnodot & Hdot).
      assert (Hin' : ∀ j : nat, Z.of_nat i ≤ Z.of_nat j < endPos st →
                nth j p 0%N ≠ CHAR_FORWARD_SLASH).
      { intros j Hj. destruct (decide (j = i)) as [->|]; [done|].
        apply Hin. lia. }
      destruct (N.eqb_spec (nth i p 0%N) CHAR_DOT) as [Hd|Hd].
      * destruct (Z.eqb_spec (startDot st) (-1)) as [Hsd|Hsd].
        -- destruct (Hnodot Hsd) as (Hpre & Hnd).
           split; simpl; [done|]. intros _.
           split; [done|]. split; [lia|]. split; [done|]. split; [done|].
           split; [lia|]. intros _. split; [lia|].
           split; [intros j Hj; by replace j with i by lia|].
           split; [intros j Hj; apply Hnd; lia|]. done.
        -- destruct (Hdot Hsd) as (Hdr & Hat & Hnd & Hiff).
           destruct (Z.eqb_spec (preDotState st) 1) as [Hp1|Hp1]; simpl.
           ++ split; [done|]. intros _.
              split; [done|]. split; [lia|]. split; [done|]. split; [done|].
              split; [done|]. intros _. split; [lia|]. split; [done|].
              split; [done|]. split; lia.
           ++ split; simpl; [done|]. intros _.
              split; [done|]. split; [lia|]. split; [done|]. split; [done|].
              split; [done|]. intros _. split; [lia|]. split; [done|].
              split; [done|]. split; lia.
      * destruct (Z.eqb_spec (startDot st) (-1)) as [Hsd|Hsd]; simpl.
        -- destruct (Hnodot Hsd) as (Hpre & Hnd).
           split; [done|]. intros _.
           split; [done|]. split; [lia|]. split; [done|]. split; [done|].
           split; [|done]. intros _. split; [done|].
           intros j Hj. destruct (decide (j = i)) as [->|]; [done|].
           apply Hnd. lia.
        -- destruct (Hdot Hsd) as (Hdr & Hat & Hnd & Hiff).
           split; simpl; [done|]. intros _.
           split; [done|]. split; [lia|]. split; [done|]. split; [done|].
           split; [done|]. intros _. split; [lia|]. split; [done|].
           split; [done|]. split; lia.
Qed.

Lemma extname_loop_inv (p : js_string) (n : nat) (st : ExtState) :
  (n ≤ length p)%nat →
  extname_inv p n st →
  ∃ m, extname_inv p m (extname_loop p n st) ∧
       (m = 0%nat ∨
        ∃ i, m = S i ∧ nth i p 0%N = CHAR_FORWARD_SLASH ∧
             endPos (extname_loop p n st) ≠ -1).
Proof.
  revert st. induction n as [|i IH]; intros st Hn Hinv; simpl.
  - exists 0%nat. split; [done|by left].
  - pose proof (extname_step_inv p i st ltac:(lia) Hinv) as Hstep.
    destruct (extname_step (nth i p 0%N) (Z.of_nat i) st) as [st'|st'].
    + destruct Hstep as (? & ? & ?). exists (S i). split; [done|].
      right. by exists i.
    + apply IH; [lia|done].
Qed.

Lemma extname_init_inv (p : js_string) : extname_inv p (length p) ext_init.
Proof. split; simpl; [|done]. intros _. repeat split. intros j Hj. lia. Qed.

Lemma extname_final_inv (p : js_string) (st : ExtState) :
  st = extname_loop p (length p) ext_init →
  ∃ m, extname_inv p m st ∧
       (m = 0%nat ∨
        ∃ i, m = S i ∧ nth i p 0%N = CHAR_FORWARD_SLASH ∧ endPos st ≠ -1).
Proof. intros ->. apply extname_loop_inv; [done|apply extname_init_inv]. Qed.

Lemma path_extname_eq (p : js_string) (st : ExtState) :
  st = extname_loop p (length p) ext_init →
  path_extname p =
  if (startDot st =? -1) || (endPos st =? -1) || (preDotState st =? 0) ||
     ((preDotState st =? 1) && (startDot st =? endPos st - 1) &&
      (startDot st =? startPart st + 1))
  then []
  else js_slice p (startDot st) (endPos st).
Proof. by intros ->. Qed.

Lemma vue_literal : js ".vue" = [46; 118; 117; 101]%N.
Proof. reflexivity. Qed.

Lemma extname_vue_forward (pre slashes : js_string) (c : code_unit) :
  c ≠ CHAR_FORWARD_SLASH →
  Forall (λ x, x = CHAR_FORWARD_SLASH) slashes →
  path_extname (pre ++ c :: js ".vue" ++ slashes) = js ".vue".
Proof.
  intros Hc Hsl. rewrite vue_literal.
  cut (∀ p : js_string, p = pre ++ c :: [46; 118; 117; 101]%N ++ slashes →
         path_extname p = [46; 118; 117; 101]%N).
  { intros Hcut. by apply Hcut. }
  intros p Ep.
  remember (length pre) as k eqn:Ek.
  assert (Hlen : length p = (k + 5 + length slashes)%nat).
  { subst p k. rewrite length_app. simpl. lia. }
  assert (Hnth : ∀ t, nth (k + t) p 0%N =
                      nth t (c :: [46; 118; 117; 101]%N ++ slashes) 0%N).
  { intros t. subst p k. apply app_nth2_plus. }
  assert (F0 : ∀ j : nat, Z.of_nat j = Z.of_nat k → nth j p 0%N = c).
  { intros j Hj. replace j with (k + 0)%nat by lia. by rewrite Hnth. }
  assert (F1 : ∀ j : nat, Z.of_nat j = Z.of_nat k + 1 → nth j p 0%N = 46%N).
  { intros j Hj. replace j with (k + 1)%nat by lia. by rewrite Hnth. }
  assert (F2 : ∀ j : nat, Z.of_nat j = Z.of_nat k + 2 → nth j p 0%N = 118%N).
  { intros j Hj. replace j with (k + 2)%nat by lia. by rewrite Hnth. }
  assert (F3 : ∀ j : nat, Z.of_nat j = Z.of_nat k + 3 → nth j p 0%N = 117%N).
  { intros j Hj. replace j with (k + 3)%nat by lia. by rewrite Hnth. }
  assert (F4 : ∀ j : nat, Z.of_nat j = Z.of_nat k + 4 → nth j p 0%N = 101%N).
  { intros j Hj. replace j with (k + 4)%nat by lia. by rewrite Hnth. }
  assert (F5 : ∀ j : nat, Z.of_nat k + 5 ≤ Z.of_nat j < Z.of_nat (length p) →
                nth j p 0%N = CHAR_FORWARD_SLASH).
  { intros j Hj. replace j with (k + (5 + (j - k - 5)))%nat by lia.
    rewrite Hnth. simpl.
    rewrite Forall_forall in Hsl. apply Hsl.
    apply list_elem_of_In, nth_In. lia. }
  remember (extname_loop p (length p) ext_init) as st eqn:Est.
  destruct (extname_final_inv p st Est) as (m & [Hnone Hsome] & Hm).
  rewrite (path_extname_eq p st Est). clear Est.
  destruct (decide (endPos st = -1)) as [He|He].
  { exfalso. destruct Hm as [-> | (i & _ & _ & ?)]; [|done].
    destruct (Hnone He) as (_ & _ & _ & Hall).
    apply Hc. rewrite <- (F0 k eq_refl). apply Hall. lia. }
  destruct (Hsome He) as (_ & Hrange & Hafter & Hin & Hnodot & Hdot).
  clear Hnone Hsome.
  assert (Hend : endPos st = Z.of_nat k + 5).
  { destruct (decide (endPos st ≤ Z.of_nat k + 4)) as [Hle|Hgt].
    - specialize (Hafter (k + 4)%nat ltac:(lia)).
      rewrite (F4 (k + 4)%nat) in Hafter by lia. done.
    - destruct (decide (endPos st = Z.of_nat k + 5)) as [|Hne]; [done|].
      exfalso. apply (Hin (Z.to_nat (endPos st - 1))); [lia|].
      apply F5. lia. }
  assert (Hmk : (m ≤ k)%nat).
  { destruct Hm as [-> | (i & -> & Hi & _)]; [lia|].
    destruct (decide (i < k)%nat) as [|Hge]; [lia|]. exfalso.
    assert (Hcases : i = k ∨ i = (k + 1)%nat ∨ i = (k + 2)%nat ∨
                     i = (k + 3)%nat) by lia.
    destruct Hcases as [-> | [-> | [-> | ->]]].
    + rewrite (F0 k) in Hi by lia. done.
    + rewrite (F1 (k + 1)%nat) in Hi by lia. done.
    + rewrite (F2 (k + 2)%nat) in Hi by lia. done.
    + rewrite (F3 (k + 3)%nat) in Hi by lia. done. }
  destruct (decide (startDot st = -1)) as [Hsd|Hsd].
  { exfalso. destruct (Hnodot Hsd) as (_ & Hnd).
    apply (Hnd (k + 1)%nat); [lia|]. apply F1. lia. }
  destruct (Hdot Hsd) as (Hdr & Hat & Hnd & Hiff). clear Hdot Hnodot.
  assert (Hstart : startDot st = Z.of_nat k + 1).
  { destruct (decide (startDot st < Z.of_nat k + 1)) as [Hlt|Hge].
    - exfalso. apply (Hnd (k + 1)%nat); [lia|]. apply F1. lia.
    - specialize (Hat (Z.to_nat (startDot st)) ltac:(lia)).
      assert (Hcases : startDot st = Z.of_nat k + 1 ∨
                       startDot st = Z.of_nat k + 2 ∨
                       startDot st = Z.of_nat k + 3 ∨
                       startDot st = Z.of_nat k + 4) by lia.
      destruct Hcases as [?|[Hx|[Hx|Hx]]]; [done|exfalso..].
      + rewrite F2 in Hat by lia. done.
      + rewrite F3 in Hat by lia. done.
      + rewrite F4 in Hat by lia. done. }
  assert (Hpre : preDotState st ≠ 0) by (rewrite Hiff; lia).
  rewrite Hend, Hstart.
  destruct (Z.eqb_spec (Z.of_nat k + 1) (-1)); [lia|].
  destruct (Z.eqb_spec (Z.of_nat k + 5) (-1)); [lia|].
  destruct (Z.eqb_spec (preDotState st) 0); [done|].
  destruct (Z.eqb_spec (Z.of_nat k + 1) (Z.of_nat k + 5 - 1)); [lia|].
  rewrite andb_false_r. simpl.
  unfold js_slice.
  replace (Z.to_nat (Z.of_nat k + 5 - (Z.of_nat k + 1))) with 4%nat by lia.
  replace (Z.to_nat (Z.of_nat k + 1)) with (S k) by lia.
  rewrite Ep.
  replace (pre ++ c :: [46; 118; 117; 101]%N ++ slashes)
    with ((pre ++ [c]) ++ [46; 118; 117; 101]%N ++ slashes)
    by (by rewrite <- app_assoc).
  rewrite drop_app_length'; [done|].
  rewrite length_app. simpl. lia.
Qed.

Lemma extname_vue_backward (p : js_string) :
  path_extname p = js ".vue" →
  ∃ pre c slashes,
    p = pre ++ c :: js ".vue" ++ slashes ∧
    c ≠ CHAR_FORWARD_SLASH ∧
    Forall (λ x, x = CHAR_FORWARD_SLASH) slashes.
Proof.
  remember (extname_loop p (length p) ext_init) as st eqn:Est.
  destruct (extname_final_inv p st Est) as (m & [Hnone Hsome] & Hm).
  rewrite (path_extname_eq p st Est), vue_literal. clear Est.
  destruct (Z.eqb_spec (startDot st) (-1)) as [|Hsd]; [done|].
  destruct (Z.eqb_spec (endPos st) (-1)) as [|He]; [done|].
  destruct (Z.eqb_spec (preDotState st) 0) as [|Hpre]; [done|].
  cbn [orb].
  destruct (_ && _); [done|].
  destruct (Hsome He) as (_ & Hrange & Hafter & Hin & _ & Hdot).
  destruct (Hdot Hsd) as (Hdr & _ & _ & Hiff). clear Hdot Hnone Hsome.
  assert (Hmd : Z.of_nat m < startDot st) by (rewrite Hiff in Hpre; lia).
  unfold js_slice. intros Hslice.
  remember (Z.to_nat (startDot st)) as d eqn:Ed.
  remember (Z.to_nat (endPos st)) as e eqn:Ee.
  assert (Hde : Z.to_nat (endPos st - startDot st) = (e - d)%nat) by lia.
  rewrite Hde in Hslice.
  assert (Hd1 : (d - 1 < length p)%nat) by lia.
  destruct (lookup_lt_is_Some_2 p (d - 1)%nat Hd1) as [c Hcl].
  exists (take (d - 1) p), c, (drop e p).
  split; [|split].
  - rewrite <- Hslice.
    rewrite <- (take_drop d p) at 1.
    replace d with (S (d - 1)) at 1 by lia.
    rewrite (take_S_r _ _ _ Hcl), <- app_assoc. simpl. do 2 f_equal.
    rewrite <- (take_drop (e - d) (drop d p)) at 1. f_equal.
    rewrite drop_drop. f_equal. lia.
  - rewrite <- (nth_lookup_Some p (d - 1) 0%N c Hcl).
    apply Hin. lia.
  - apply Forall_lookup. intros i x Hx. simpl.
    rewrite lookup_drop in Hx.
    rewrite <- (nth_lookup_Some p (e + i) 0%N x Hx).
    apply Hafter. apply lookup_lt_Some in Hx. lia.
Qed.

(** X12: with a string as filePath, the classifier answers true exactly
    when the last component of the path, trailing slashes aside, is at
    least one character followed by .vue, or the text is white space
    followed by [<]. *)
Theorem vue_paths_by_extension (code : js_string) (o : obj) (p : js_string) :
  get o "filePath" = JStr p →
  (path_extname p = js ".vue" ↔ has_vue_extension p) ∧
  (isVueFile code o = inr true ↔ has_vue_extension p ∨ begins_with_lt code).
Proof.
  intros Hp.
  assert (Hext : path_extname p = js ".vue" ↔ has_vue_extension p).
  { split; [apply extname_vue_backward|].
    intros (pre & c & slashes & -> & Hc & Hsl).
    by apply extname_vue_forward. }
  split; [done|].
  rewrite (isVueFile_string code o p Hp).
  rewrite <- Hext, <- STARTS_WITH_LT_test_spec, <- str_eqb_true.
  rewrite <- orb_true_iff. split; [by intros [= ->]|by intros ->].
Qed.

Lemma vue_paths_by_extension_witness :
  isVueFile Sample.doc_plain {[ "filePath" := JStr (js "src/App.vue/") ]} =
  inr true.
Proof.
  apply (vue_paths_by_extension Sample.doc_plain
           {[ "filePath" := JStr (js "src/App.vue/") ]}
           (js "src/App.vue/")).
  - reflexivity.
  - left. exists (js "src/Ap"), 112%N, (js "/").
    split; [reflexivity|]. split; [discriminate|].
    vm_compute. repeat constructor.
Defined.
